(** * musicality: notes, scales and transposition (src/music/music.py)

    A shallow embedding of the note/scale algebra of [music.py] and of the
    constants of [notes.py].  Python integers are [Z]; lists are [list];
    a raised exception is the [Raise] branch of [result]; the dict returned
    by [Scale.get_transpose] is an insertion-ordered association list whose
    keys are matched the way CPython matches them: same hash, then [==].
    The document classes of [musicxml/notes.py] and [TransposerHelper], the
    caller of the scale algebra, follow the music classes. *)

From Stdlib Require Import ZArith String List Bool Lia SpecFloat.
Import ListNotations.
Open Scope Z_scope.

(** ** Exceptions *)

Inductive exn : Type :=
| ValueError (msg : string)
| IndexError
| ZeroDivisionError.

Inductive result (T : Type) : Type :=
| Ok (v : T)
| Raise (e : exn).

Arguments Ok {T} v.
Arguments Raise {T} e.

Definition bind {T U : Type} (m : result T) (k : T -> result U) : result U :=
  match m with
  | Ok v => k v
  | Raise e => Raise e
  end.

Notation "x <- m ;; k" := (bind m (fun x => k))
  (at level 61, m at next level, right associativity).

Definition raises {T : Type} (m : result T) : Prop := exists e, m = Raise e.
Definition returns {T : Type} (m : result T) : Prop := exists v, m = Ok v.

(** A list comprehension [[f x for x in xs]] whose body may raise. *)
Fixpoint comprehension {T U : Type} (f : T -> result U) (xs : list T)
  : result (list U) :=
  match xs with
  | [] => Ok []
  | x :: xs' => y <- f x ;; ys <- comprehension f xs' ;; Ok (y :: ys)
  end.

(** A [for x in xs: body] loop over a state that may raise. *)
Fixpoint for_loop {S T : Type} (xs : list T) (body : S -> T -> result S)
  (s : S) : result S :=
  match xs with
  | [] => Ok s
  | x :: xs' => s' <- body s x ;; for_loop xs' body s'
  end.

(** [range(lo, hi)] *)
Definition range (lo hi : Z) : list Z :=
  map (fun i => lo + Z.of_nat i) (seq 0 (Z.to_nat (hi - lo))).

(** [xs[i]] for a non-negative or negative index. *)
Definition getitem {T : Type} (xs : list T) (i : Z) : result T :=
  let n := Z.of_nat (length xs) in
  let j := if i <? 0 then i + n else i in
  if (j <? 0) || (n <=? j) then Raise IndexError
  else match nth_error xs (Z.to_nat j) with
       | Some v => Ok v
       | None => Raise IndexError
       end.

(** [xs[:k]] *)
Definition slice_to {T : Type} (xs : list T) (k : Z) : list T :=
  let n := Z.of_nat (length xs) in
  let j := if k <? 0 then Z.max 0 (k + n) else k in
  firstn (Z.to_nat j) xs.

(** [sum(xs)] *)
Definition sum (xs : list Z) : Z := fold_left Z.add xs 0.

(** [a % b] *)
Definition py_mod (a b : Z) : result Z :=
  if b =? 0 then Raise ZeroDivisionError else Ok (a mod b).

Definition NOTES_IN_SCALE : Z := 7.
Definition NOTES_IN_OCTAVE : Z := 12.

(** ** The enumerations *)

Module NoteName.
Inductive t : Type := A | B | C | D | E | F | G.

Definition value (n : t) : Z :=
  match n with
  | A => 1 | B => 2 | C => 3 | D => 4 | E => 5 | F => 6 | G => 7
  end.

(** [NoteName(v)]: the member whose value is [v]. *)
Definition of_value (v : Z) : result t :=
  match v with
  | 1 => Ok A | 2 => Ok B | 3 => Ok C | 4 => Ok D
  | 5 => Ok E | 6 => Ok F | 7 => Ok G
  | _ => Raise (ValueError "not a valid NoteName")
  end.

Definition eqb (x y : t) : bool := value x =? value y.


Definition repr (n : t) : string :=
  match n with
  | A => "A" | B => "B" | C => "C" | D => "D"
  | E => "E" | F => "F" | G => "G"
  end.
End NoteName.

Module NoteAccidental.
Inductive t : Type := FLAT | NATURAL | SHARP | DOUBLE_SHARP.

Definition value (a : t) : string :=
  match a with
  | FLAT => "flat"
  | NATURAL => "natural"
  | SHARP => "sharp"
  | DOUBLE_SHARP => "double-sharp"
  end.

Definition eqb (x y : t) : bool :=
  match x, y with
  | FLAT, FLAT | NATURAL, NATURAL | SHARP, SHARP
  | DOUBLE_SHARP, DOUBLE_SHARP => true
  | _, _ => false
  end.


Definition repr (a : t) : string :=
  match a with
  | FLAT => "b"
  | NATURAL => EmptyString
  | SHARP => "#"
  | DOUBLE_SHARP => "x"
  end.
End NoteAccidental.

Module NoteType.
Inductive t : Type := WHOLE | HALF | QUARTER | EIGHTH | SIXTEENTH.

End NoteType.

Module ScaleType.
Inductive t : Type := IONIAN | AEOLIAN.

Definition value (s : t) : Z :=
  match s with
  | IONIAN => 1
  | AEOLIAN => 2
  end.

Definition eqb (x y : t) : bool := value x =? value y.

End ScaleType.

(** ** Note *)

Record Note : Type := mkNote
  { note_name : NoteName.t;
    accidental : NoteAccidental.t;
    note_type : option NoteType.t }.

(** [Note(note_name, accidental=NATURAL, note_type=None)]; an omitted
    argument is [None]. *)
Definition Note__init__ (name : NoteName.t)
  (acc : option NoteAccidental.t) (ty : option NoteType.t) : Note :=
  {| note_name := name;
     accidental := match acc with
                   | Some a => a
                   | None => NoteAccidental.NATURAL
                   end;
     note_type := ty |}.

(** The two-argument call [Note(name, acc)] used all over the source. *)
Definition Note2 (name : NoteName.t) (acc : NoteAccidental.t) : Note :=
  Note__init__ name (Some acc) None.

Definition get_next_note_name (self : Note) : result NoteName.t :=
  let v := NoteName.value (note_name self) in
  NoteName.of_value (if v <? 7 then v + 1 else 1).

(** The chain of [if self.accidental == ...] tests covers the four members
    of the enumeration, so the trailing [raise ValueError] is the branch of
    no member. *)
Definition get_root_note (self : Note) : result Note :=
  let v := NoteName.value (note_name self) in
  match accidental self with
  | NoteAccidental.NATURAL =>
      Ok (Note2 (note_name self) NoteAccidental.NATURAL)
  | NoteAccidental.FLAT =>
      nm <- NoteName.of_value (if 1 <? v then v - 1 else 7) ;;
      Ok (Note2 nm NoteAccidental.SHARP)
  | NoteAccidental.SHARP =>
      if existsb (NoteName.eqb (note_name self)) [NoteName.B; NoteName.E]
      then nm <- NoteName.of_value (if v <? 7 then v + 1 else 1) ;;
           Ok (Note2 nm NoteAccidental.NATURAL)
      else Ok (Note2 (note_name self) NoteAccidental.SHARP)
  | NoteAccidental.DOUBLE_SHARP =>
      nm <- NoteName.of_value (if v <? 7 then v + 1 else 1) ;;
      Ok (Note2 nm NoteAccidental.NATURAL)
  end.

(** [Note.__eq__] between two Notes. *)
Definition Note_eq (self other : Note) : result bool :=
  root_note <- get_root_note self ;;
  other_root_note <- get_root_note other ;;
  Ok (NoteName.eqb (note_name root_note) (note_name other_root_note)
      && NoteAccidental.eqb (accidental root_note)
           (accidental other_root_note)).

(** The tuple that [Note.__hash__] hands to the built-in [hash]. *)
Definition Note_hash_args (self : Note) : NoteName.t * NoteAccidental.t :=
  (note_name self, accidental self).

Definition copy (self : Note) : Note :=
  Note2 (note_name self) (accidental self).

Definition Note_repr (self : Note) : string :=
  String.append (NoteName.repr (note_name self))
    (NoteAccidental.repr (accidental self)).

(** ** NoteOrdering *)

Module NoteOrdering.
Import NoteName NoteAccidental.

Definition get_alphabet_ordering : list Note :=
  [ Note2 A NATURAL; Note2 A SHARP; Note2 B NATURAL; Note2 C NATURAL;
    Note2 C SHARP; Note2 D NATURAL; Note2 D SHARP; Note2 E NATURAL;
    Note2 F NATURAL; Note2 F SHARP; Note2 G NATURAL; Note2 G SHARP ].

Definition get_default_order : list Note :=
  [ Note2 C NATURAL; Note2 C SHARP; Note2 D FLAT; Note2 D NATURAL;
    Note2 D SHARP; Note2 E FLAT; Note2 E NATURAL; Note2 F NATURAL;
    Note2 F SHARP; Note2 G FLAT; Note2 G NATURAL; Note2 G SHARP;
    Note2 A FLAT; Note2 A NATURAL; Note2 A SHARP; Note2 B FLAT;
    Note2 B NATURAL ].
End NoteOrdering.

(** [order.index(x)]: position of the first element that [==] x; when there
    is none, ValueError with the message [repr(x) + " is not in list"]. *)
Fixpoint list_index (order : list Note) (x : Note) : result Z :=
  match order with
  | [] => Raise (ValueError (String.append (Note_repr x) " is not in list"))
  | y :: rest =>
      b <- Note_eq y x ;;
      if b then Ok 0 else i <- list_index rest x ;; Ok (i + 1)
  end.

Definition ordering_or_default (ordering : option (list Note)) : list Note :=
  match ordering with
  | None => NoteOrdering.get_alphabet_ordering
  | Some o => o
  end.

Definition get_note_n_steps_away (self : Note) (n : Z)
  (ordering : option (list Note)) : result Note :=
  let order := ordering_or_default ordering in
  root_note <- get_root_note self ;;
  root_note_index <- list_index order root_note ;;
  new_note_index <- py_mod (root_note_index + n) (Z.of_nat (length order)) ;;
  getitem order new_note_index.

Definition get_steps_from (self other_note : Note)
  (ordering : option (list Note)) : result Z :=
  let order := ordering_or_default ordering in
  root_note <- get_root_note self ;;
  other_root_note <- get_root_note other_note ;;
  i_other <- list_index order other_root_note ;;
  i_self <- list_index order root_note ;;
  py_mod (i_other - i_self) (Z.of_nat (length order)).

(** ** Scale *)

Record Scale : Type := mkScale
  { start_note : Note;
    scale_type : ScaleType.t }.

(** [Scale(start_note, scale_type=IONIAN)] *)
Definition Scale__init__ (start : Note) (ty : option ScaleType.t) : Scale :=
  {| start_note := start;
     scale_type := match ty with
                   | Some t => t
                   | None => ScaleType.IONIAN
                   end |}.

(** Both members of [ScaleType] are covered, so [raise ValueError] is the
    branch of no member. *)
Definition get_scale_formula (self : Scale) : list Z :=
  match scale_type self with
  | ScaleType.IONIAN => [0; 2; 2; 1; 2; 2; 2]
  | ScaleType.AEOLIAN => [0; 2; 1; 2; 2; 1; 2]
  end.

Definition get_scale_formula_cum_sum (self : Scale) : list Z :=
  map (fun i => sum (slice_to (get_scale_formula self) (i + 1)))
      (range 0 NOTES_IN_SCALE).

Definition get_scale_note_ordering (self : Scale) : result (list Note) :=
  comprehension (fun step => get_note_n_steps_away (start_note self) step None)
    (range 0 NOTES_IN_OCTAVE).

Definition get_basic_scale (self : Scale) : result (list Note) :=
  comprehension (fun step => get_note_n_steps_away (start_note self) step None)
    (get_scale_formula_cum_sum self).

(** [x == name and prev == note], evaluated left to right. *)
Definition name_is_and_prev_eq (should_be name : NoteName.t)
  (prev_note other : Note) : result bool :=
  if NoteName.eqb should_be name then Note_eq prev_note other else Ok false.

(** One turn of the loop of [get_scale]. *)
Definition get_scale_body (basic_scale : list Note) (notes : list Note)
  (scale_degree : Z) : result (list Note) :=
  prev_note <- getitem notes (-1) ;;
  curr_note <- getitem basic_scale scale_degree ;;
  should_be_note_name <- get_next_note_name prev_note ;;
  if NoteName.eqb (note_name curr_note) should_be_note_name
  then Ok (notes ++ [curr_note])
  else
    if NoteName.value should_be_note_name
       <? NoteName.value (note_name curr_note)
    then
      is_f <- name_is_and_prev_eq should_be_note_name NoteName.F prev_note
                (Note2 NoteName.E NoteAccidental.SHARP) ;;
      if is_f
      then Ok (notes ++ [Note2 NoteName.F NoteAccidental.DOUBLE_SHARP])
      else
        is_c <- name_is_and_prev_eq should_be_note_name NoteName.C prev_note
                  (Note2 NoteName.B NoteAccidental.SHARP) ;;
        if is_c
        then Ok (notes ++ [Note2 NoteName.C NoteAccidental.DOUBLE_SHARP])
        else Ok (notes ++ [Note2 should_be_note_name NoteAccidental.SHARP])
    else Ok (notes ++ [Note2 should_be_note_name NoteAccidental.FLAT]).

Definition get_scale (self : Scale) : result (list Note) :=
  let notes := [copy (start_note self)] in
  basic_scale <- get_basic_scale self ;;
  for_loop (range 1 NOTES_IN_SCALE) (get_scale_body basic_scale) notes.

(** ** Dicts keyed by Notes

    [Note.__hash__] is [hash((self.note_name, self.accidental))]; the
    built-in hash of that tuple is a parameter.  A stored key matches a
    looked-up key when the hashes agree and the keys are [==]. *)

Section Dict.
Variable tuple_hash : NoteName.t * NoteAccidental.t -> Z.

Definition Note_hash (self : Note) : Z := tuple_hash (Note_hash_args self).

Definition key_match (stored key : Note) : result bool :=
  if Note_hash stored =? Note_hash key then Note_eq stored key else Ok false.

(** [d[key] = v]: the matching entry keeps its key and takes the value;
    a new key goes last. *)
Fixpoint dict_setitem (d : list (Note * Note)) (key v : Note)
  : result (list (Note * Note)) :=
  match d with
  | [] => Ok [(key, v)]
  | (k, w) :: rest =>
      b <- key_match k key ;;
      if b then Ok ((k, v) :: rest)
      else rest' <- dict_setitem rest key v ;; Ok ((k, w) :: rest')
  end.

(** [d.get(key)] *)
Fixpoint dict_get (d : list (Note * Note)) (key : Note)
  : result (option Note) :=
  match d with
  | [] => Ok None
  | (k, w) :: rest =>
      b <- key_match k key ;;
      if b then Ok (Some w) else dict_get rest key
  end.

Definition get_transpose (self other_scale : Scale)
  : result (list (Note * Note)) :=
  if negb (ScaleType.eqb (scale_type self) (scale_type other_scale))
  then Raise (ValueError "Cannot transpose scales of different types")
  else
    self_scale_order <- get_scale self ;;
    other_scale_order <- get_scale other_scale ;;
    for_loop (range 0 NOTES_IN_SCALE)
      (fun d i =>
         k <- getitem self_scale_order i ;;
         v <- getitem other_scale_order i ;;
         dict_setitem d k v)
      [].
End Dict.

Definition transpose_notes_from (self original_scale : Scale)
  (notes : list Note) : result (list Note) :=
  if negb (ScaleType.eqb (scale_type original_scale) (scale_type self))
  then Raise (ValueError "Cannot transpose scales of different types")
  else
    for_loop notes
      (fun transposed note =>
         steps_from_home_note <-
           get_steps_from (start_note original_scale) note None ;;
         transposed_note <-
           get_note_n_steps_away (start_note self) steps_from_home_note None ;;
         Ok (transposed ++ [transposed_note]))
      [].

(** ** notes.py *)

Module notes.
Import NoteName NoteAccidental.

Definition C := Note__init__ NoteName.C None None.
Definition C_SHARP := Note2 NoteName.C SHARP.
Definition D := Note__init__ NoteName.D None None.
Definition D_SHARP := Note2 NoteName.D SHARP.
Definition E := Note__init__ NoteName.E None None.
Definition F := Note__init__ NoteName.F None None.
Definition F_SHARP := Note2 NoteName.F SHARP.
Definition G := Note__init__ NoteName.G None None.
Definition G_SHARP := Note2 NoteName.G SHARP.
Definition A := Note__init__ NoteName.A None None.
Definition A_SHARP := Note2 NoteName.A SHARP.
Definition B := Note__init__ NoteName.B None None.

Definition D_FLAT := Note2 NoteName.D FLAT.
Definition E_FLAT := Note2 NoteName.E FLAT.
Definition G_FLAT := Note2 NoteName.G FLAT.
Definition A_FLAT := Note2 NoteName.A FLAT.
Definition B_FLAT := Note2 NoteName.B FLAT.

Definition C_DOUBLE_SHARP := Note2 NoteName.C DOUBLE_SHARP.
Definition F_DOUBLE_SHARP := Note2 NoteName.F DOUBLE_SHARP.

Definition E_SHARP := Note2 NoteName.E SHARP.
Definition B_SHARP := Note2 NoteName.B SHARP.
End notes.

(** What [transpose_notes_from] is said to compute for one input Note: the
    forward distance of [note] from the original start, applied to the new
    start. *)
Definition moved_by_distance (self original_scale : Scale)
  (note moved : Note) : Prop :=
  exists steps,
    get_steps_from (start_note original_scale) note None = Ok steps
    /\ 0 <= steps < NOTES_IN_OCTAVE
    /\ get_note_n_steps_away (start_note self) steps None = Ok moved.

(** Membership of the 12-entry chromatic ring, with what it says about the
    spelling. *)
Definition chromatic_ring_entry (x : Note) : Prop :=
  In x NoteOrdering.get_alphabet_ordering
  /\ (accidental x = NoteAccidental.NATURAL
      \/ accidental x = NoteAccidental.SHARP).

(** The running totals of a list, in the spec's words: the k-th value is
    the sum of the first k+1 entries. *)
Fixpoint spec_prefix_sums (acc : Z) (xs : list Z) : list Z :=
  match xs with
  | [] => []
  | x :: rest => (acc + x) :: spec_prefix_sums (acc + x) rest
  end.

(** Closed form of [get_next_note_name], as a function of the letter. *)
Definition next_letter (nm : NoteName.t) : NoteName.t :=
  match nm with
  | NoteName.A => NoteName.B | NoteName.B => NoteName.C
  | NoteName.C => NoteName.D | NoteName.D => NoteName.E
  | NoteName.E => NoteName.F | NoteName.F => NoteName.G
  | NoteName.G => NoteName.A
  end.

(** Each letter follows the one before: the invariant of the loop. *)
Fixpoint letter_chain (prev : Note) (ext : list Note) : Prop :=
  match ext with
  | [] => True
  | x :: rest =>
      note_name x = next_letter (note_name prev) /\ letter_chain x rest
  end.

(** ** Notions used to state properties of the note arithmetic *)

(** [order.index(self.get_root_note())] against the default ordering: the
    position both [get_note_n_steps_away] and [get_steps_from] start from. *)
Definition chromatic_index (n : Note) : result Z :=
  root_note <- get_root_note n ;;
  list_index NoteOrdering.get_alphabet_ordering root_note.

(** [x == y] evaluated to [True]. *)
Definition eq_holds (x y : Note) : bool :=
  match Note_eq x y with
  | Ok true => true
  | _ => false
  end.

(** C-flat and F-flat: the flats whose root is spelled B-sharp, E-sharp. *)
Definition flat_of_C_or_F (n : Note) : bool :=
  NoteAccidental.eqb (accidental n) NoteAccidental.FLAT
  && (NoteName.eqb (note_name n) NoteName.C
      || NoteName.eqb (note_name n) NoteName.F).

(** The situations in which the re-spelling of [get_scale] keeps the pitch
    of the naive pick [curr], given the previous spelled degree [prev]: the
    pick already has the expected letter; or it is the sharp of the previous
    letter (other than G), answered by a flat; or it is C or F natural
    reached from A or D, answered by B-sharp or E-sharp; or it is G or D
    natural after a degree [==] to E-sharp or B-sharp, answered by a
    double sharp. *)
Definition respelling_keeps_pitch (prev curr : Note) : bool :=
  let expected := next_letter (note_name prev) in
  NoteName.eqb (note_name curr) expected
  || (NoteName.eqb (note_name curr) (note_name prev)
      && NoteAccidental.eqb (accidental curr) NoteAccidental.SHARP
      && negb (NoteName.eqb (note_name prev) NoteName.G))
  || (NoteAccidental.eqb (accidental curr) NoteAccidental.NATURAL
      && NoteName.eqb (note_name curr) (next_letter expected)
      && (NoteName.eqb expected NoteName.B
          || NoteName.eqb expected NoteName.E))
  || (NoteName.eqb expected NoteName.F
      && eq_holds curr (Note2 NoteName.G NoteAccidental.NATURAL)
      && eq_holds prev (Note2 NoteName.E NoteAccidental.SHARP))
  || (NoteName.eqb expected NoteName.C
      && eq_holds curr (Note2 NoteName.D NoteAccidental.NATURAL)
      && eq_holds prev (Note2 NoteName.B NoteAccidental.SHARP)).

(** ** musicxml/types.py and musicxml/notes.py

    The document classes that carry Notes in and out of the scale algebra,
    and [TransposerHelper], the caller of [Scale.transpose_notes_from].
    Fields are typed as annotated in the source; a float is its IEEE value;
    an object that the code mutates is threaded as a value, which is exact
    here because every mutated object was created by a [copy] just before,
    or is handed back explicitly ([transpose_part]). *)

Module musicxml.

Module Syllabic.
Inductive t : Type := SINGLE | BEGIN | MIDDLE | END.
End Syllabic.

Module BeamType.
Inductive t : Type := BEGIN | CONTINUE | END.
End BeamType.

Module TieType.
Inductive t : Type := START | STOP.
End TieType.

Module StemType.
Inductive t : Type := UP | DOWN | NONE | DOUBLE.
End StemType.

Module ClefSign.
Inductive t : Type := TREBLE | BASS | ALTO | PERCUSSION.
End ClefSign.

Module BarLocation.
Inductive t : Type := LEFT | RIGHT | MIDDLE.
End BarLocation.

Module BarStyle.
Inductive t : Type :=
| LIGHT_LIGHT | LIGHT_HEAVY | HEAVY_LIGHT | HEAVY_HEAVY | DOTTED | DOUBLE
| FINAL | REGULAR | SHORT | TICK.
End BarStyle.

(** [from src.music.music import Scale as MusicalScale, Note as MusicalNote] *)
Definition MusicalScale : Type := Scale.
Definition MusicalNote : Type := Note.

Module Lyric.
Record t : Type := mk
  { text : string;
    first_syllabic : option Syllabic.t;
    elision : option string;
    last_syllabic : option Syllabic.t;
    end_text : option string }.

Definition copy (self : t) : t :=
  mk (text self) (first_syllabic self) (elision self) (last_syllabic self)
     (end_text self).
End Lyric.

Module Beam.
Record t : Type := mk
  { number : Z;
    beam_type : BeamType.t }.
End Beam.

Module Pitch.
Record t : Type := mk
  { step : NoteName.t;
    octave : Z;
    alter : option spec_float }.

Definition copy (self : t) : t := mk (step self) (octave self) (alter self).
End Pitch.

(** [Unpitched] and [Rest] declare two attributes; [step] is the attribute
    that [transpose_measure] may add to an instance from outside, absent
    ([None]) on every instance the class itself builds. *)
Module Unpitched.
Record t : Type := mk
  { display_step : option NoteName.t;
    display_octave : option Z;
    step : option NoteName.t }.

Definition __init__ (display_step : option NoteName.t)
  (display_octave : option Z) : t :=
  mk display_step display_octave None.

Definition copy (self : t) : t :=
  __init__ (display_step self) (display_octave self).
End Unpitched.

Module Rest.
Record t : Type := mk
  { display_step : option NoteName.t;
    display_octave : option Z;
    step : option NoteName.t }.

Definition __init__ (display_step : option NoteName.t)
  (display_octave : option Z) : t :=
  mk display_step display_octave None.

Definition copy (self : t) : t :=
  __init__ (display_step self) (display_octave self).
End Rest.

(** [Union[Pitch, Unpitched, Rest]] *)
Inductive FirstPosition : Type :=
| IsPitch (p : Pitch.t)
| IsUnpitched (u : Unpitched.t)
| IsRest (r : Rest.t).

(** [first_position.copy()] *)
Definition FirstPosition_copy (fp : FirstPosition) : FirstPosition :=
  match fp with
  | IsPitch p => IsPitch (Pitch.copy p)
  | IsUnpitched u => IsUnpitched (Unpitched.copy u)
  | IsRest r => IsRest (Rest.copy r)
  end.

(** [first_position.step = name] *)
Definition FirstPosition_set_step (fp : FirstPosition) (name : NoteName.t)
  : FirstPosition :=
  match fp with
  | IsPitch p => IsPitch (Pitch.mk name (Pitch.octave p) (Pitch.alter p))
  | IsUnpitched u =>
      IsUnpitched (Unpitched.mk (Unpitched.display_step u)
                     (Unpitched.display_octave u) (Some name))
  | IsRest r =>
      IsRest (Rest.mk (Rest.display_step r) (Rest.display_octave r)
                (Some name))
  end.

Module Note.
Record t : Type := mk
  { first_position : FirstPosition;
    ties : option (list TieType.t);
    instrument : option string;
    footnote : option string;
    level : option string;
    voice : option Z;
    note_type : option NoteType.t;
    dots : option Z;
    accidental : option NoteAccidental.t;
    time_modification : option string;
    stem : option StemType.t;
    notehead : option string;
    notehead_text : option string;
    staff : option Z;
    beam : option (list Beam.t);
    notations : option string;
    lyric : option Lyric.t;
    play : option string;
    listen : option string;
    duration : option Z }.

(** The constructor, arguments in the order of the signature; an enum
    member is truthy, so [if accidental:] is false for [None] only. *)
Definition __init__ (first_position : FirstPosition)
  (ties : option (list TieType.t)) (instrument footnote : option string)
  (duration : option Z) (level : option string) (voice : option Z)
  (note_type : option NoteType.t) (dots : option Z)
  (accidental : option NoteAccidental.t) (time_modification : option string)
  (stem : option StemType.t) (notehead notehead_text : option string)
  (staff : option Z) (beam : option (list Beam.t)) (notations : option string)
  (lyric : option Lyric.t) (play listen : option string) : t :=
  {| first_position := first_position;
     ties := ties;
     instrument := instrument;
     footnote := footnote;
     level := level;
     voice := voice;
     note_type := note_type;
     dots := dots;
     accidental := match accidental with
                   | Some a => Some a
                   | None => Some NoteAccidental.NATURAL
                   end;
     time_modification := time_modification;
     stem := stem;
     notehead := notehead;
     notehead_text := notehead_text;
     staff := staff;
     beam := beam;
     notations := notations;
     lyric := lyric;
     play := play;
     listen := listen;
     duration := duration |}.

(** [self.beam.copy() if self.beam else None]: an empty list is falsy. *)
Definition copy_beam (beam : option (list Beam.t)) : option (list Beam.t) :=
  match beam with
  | Some (b :: bs) => Some (b :: bs)
  | _ => None
  end.

Definition copy (self : t) : t :=
  __init__ (FirstPosition_copy (first_position self)) (ties self)
    (instrument self) (footnote self) (duration self) (level self)
    (voice self) (note_type self) (dots self) (accidental self)
    (time_modification self) (stem self) (notehead self)
    (notehead_text self) (staff self) (copy_beam (beam self))
    (notations self) (option_map Lyric.copy (lyric self)) (play self)
    (listen self).

(** [note.first_position.step = name; note.accidental = acc] *)
Definition retarget (self : t) (name : NoteName.t) (acc : NoteAccidental.t)
  : t :=
  {| first_position := FirstPosition_set_step (first_position self) name;
     ties := ties self;
     instrument := instrument self;
     footnote := footnote self;
     level := level self;
     voice := voice self;
     note_type := note_type self;
     dots := dots self;
     accidental := Some acc;
     time_modification := time_modification self;
     stem := stem self;
     notehead := notehead self;
     notehead_text := notehead_text self;
     staff := staff self;
     beam := beam self;
     notations := notations self;
     lyric := lyric self;
     play := play self;
     listen := listen self;
     duration := duration self |}.
End Note.

Module Clef.
Record t : Type := mk
  { sign : ClefSign.t;
    octave_change : option Z }.

Definition get_line_value (self : t) : option Z :=
  match sign self with
  | ClefSign.TREBLE => Some 2
  | ClefSign.BASS => Some 4
  | ClefSign.ALTO => Some 3
  | ClefSign.PERCUSSION => None
  end.
End Clef.

Module Attributes.
Record t : Type := mk
  { divisions : Z;
    key_fifths : Z;
    beats : Z;
    beat_type : Z;
    clef : option Clef.t }.

Definition copy (self : t) : t :=
  mk (divisions self) (key_fifths self) (beats self) (beat_type self)
     (clef self).

(** [attributes.key_fifths = k] *)
Definition set_key_fifths (self : t) (k : Z) : t :=
  mk (divisions self) k (beats self) (beat_type self) (clef self).
End Attributes.

Module Barline.
Record t : Type := mk
  { location : BarLocation.t;
    bar_style : BarStyle.t }.

Definition copy (self : t) : t := mk (location self) (bar_style self).
End Barline.

Module Measure.
Record t : Type := mk
  { number : Z;
    notes : list Note.t;
    attributes : option Attributes.t;
    barline : option Barline.t }.

Definition copy (self : t) : t :=
  let barline :=
    match barline self with
    | Some b => Some (Barline.mk (Barline.location b) (Barline.bar_style b))
    | None => None
    end in
  mk (number self) (map Note.copy (notes self))
     (option_map Attributes.copy (attributes self)) barline.
End Measure.

Module Part.
Record t : Type := mk
  { id : string;
    name : string;
    measures : list Measure.t }.

Definition copy (self : t) : t :=
  mk (id self) (name self) (map Measure.copy (measures self)).
End Part.

Module ScorePartwise.
Record t : Type := mk
  { parts_list : list Part.t }.
End ScorePartwise.

Module TransposerHelper.



Definition get_scale_key_fifths (scale : MusicalScale) : result Z :=
  let home_note := start_note scale in
  let natural_order := NoteOrdering.get_default_order in
  list_index natural_order home_note.

(** One turn of the loop of [convert_notes]; [x or NATURAL] keeps [x]
    unless it is [None]. *)
Definition convert_notes_body (new_notes : list MusicalNote)
  (xml_note : Note.t) : list MusicalNote :=
  let accidental :=
    match Note.accidental xml_note with
    | Some a => a
    | None => NoteAccidental.NATURAL
    end in
  match Note.first_position xml_note with
  | IsPitch p => new_notes ++ [Note2 (Pitch.step p) accidental]
  | _ => new_notes
  end.

Definition convert_notes (notes : list Note.t) : list MusicalNote :=
  fold_left convert_notes_body notes [].

(** [enumerate(xs)] *)
Definition enumerate {T : Type} (xs : list T) : list (Z * T) :=
  combine (range 0 (Z.of_nat (List.length xs))) xs.

(** The object [xs[i]] is changed in place by [f]. *)
Definition update_item {T : Type} (xs : list T) (i : Z) (f : T -> T)
  : result (list T) :=
  x <- getitem xs i ;;
  let j := if i <? 0 then i + Z.of_nat (List.length xs) else i in
  Ok (firstn (Z.to_nat j) xs ++ f x :: skipn (S (Z.to_nat j)) xs).

Definition transpose_measure (measure : Measure.t)
  (new_scale original_scale : MusicalScale) : result Measure.t :=
  let new_measure := Measure.copy measure in
  let musical_notes := convert_notes (Measure.notes measure) in
  new_musical_notes <-
    transpose_notes_from new_scale original_scale musical_notes ;;
  let new_notes := map Note.copy (Measure.notes measure) in
  new_notes <-
    for_loop (enumerate new_musical_notes)
      (fun new_notes '(i, new_note) =>
         update_item new_notes i
           (fun n => Note.retarget n (note_name new_note)
                       (accidental new_note)))
      new_notes ;;
  new_attributes <-
    match Measure.attributes measure with
    | Some attributes =>
        let new_attributes := Attributes.copy attributes in
        k <- get_scale_key_fifths new_scale ;;
        Ok (Some (Attributes.set_key_fifths new_attributes k))
    | None => Ok None
    end ;;
  Ok (Measure.mk (Measure.number new_measure) new_notes new_attributes
        (Measure.barline new_measure)).

(** [transpose_part] rebinds [part.measures] on its argument and returns
    another object: the result is the argument after the call, paired with
    what the call returns or raises. *)
Definition transpose_part (part : Part.t)
  (new_scale original_scale : MusicalScale) : Part.t * result Part.t :=
  let new_part := Part.copy part in
  match for_loop (Part.measures part)
          (fun transposed_measures measure =>
             new_measure <-
               transpose_measure measure new_scale original_scale ;;
             Ok (transposed_measures ++ [new_measure]))
          [] with
  | Ok transposed_measures =>
      (Part.mk (Part.id part) (Part.name part) transposed_measures,
       Ok new_part)
  | Raise e => (part, Raise e)
  end.

End TransposerHelper.

End musicxml.

(** [isinstance(xml_note.first_position, Pitch)] *)
Definition is_pitched (n : musicxml.Note.t) : bool :=
  match musicxml.Note.first_position n with
  | musicxml.IsPitch _ => true
  | _ => false
  end.

(** The i-th Note of [ts] written onto the i-th entry of [xs], for as long
    as both lists last; the entries of [xs] beyond [ts] are kept. *)
Fixpoint retarget_prefix (xs : list musicxml.Note.t) (ts : list Note)
  : list musicxml.Note.t :=
  match xs, ts with
  | x :: xs', t :: ts' =>
      musicxml.Note.retarget x (note_name t) (accidental t)
      :: retarget_prefix xs' ts'
  | _, _ => xs
  end.


(** The notes of tests/test_musicxml.py: a pitched C with the given
    accidental, and a rest. *)
Definition pitched_C (acc : option NoteAccidental.t) : musicxml.Note.t :=
  musicxml.Note.__init__
    (musicxml.IsPitch (musicxml.Pitch.mk NoteName.C 4 None))
    None None None None None None None None acc None None None None None None
    None None None None.

Definition rest_note : musicxml.Note.t :=
  musicxml.Note.__init__
    (musicxml.IsRest (musicxml.Rest.__init__ None None))
    None None None None None None None None None None None None None None None
    None None None None.

(** * Properties *)

(** ** Generic facts about the Python-level helpers *)

Lemma raises_not_returns {T : Type} (m : result T) : raises m -> ~ returns m.
Proof. intros [e He] [v Hv]. congruence. Qed.

Lemma getitem_in_range {T : Type} (xs : list T) (j : Z) :
  0 <= j < Z.of_nat (List.length xs) ->
  exists v, getitem xs j = Ok v /\ nth_error xs (Z.to_nat j) = Some v.
Proof.
  intros Hj. unfold getitem.
  assert (H1 : (j <? 0) = false) by (apply Z.ltb_ge; lia).
  assert (H2 : (Z.of_nat (List.length xs) <=? j) = false)
    by (apply Z.leb_gt; lia).
  rewrite H1. cbv iota. rewrite H1, H2. cbn [orb].
  destruct (nth_error xs (Z.to_nat j)) as [v |] eqn:Hn.
  - exists v. split; reflexivity.
  - apply nth_error_None in Hn. lia.
Qed.

Lemma getitem_last {T : Type} (xs : list T) (x : T) :
  getitem (xs ++ [x]) (-1) = Ok x.
Proof.
  unfold getitem. rewrite length_app. cbn [List.length].
  change (-1 <? 0) with true. cbv iota.
  replace (-1 + Z.of_nat (List.length xs + 1)) with (Z.of_nat (List.length xs))
    by lia.
  assert (H1 : (Z.of_nat (List.length xs) <? 0) = false)
    by (apply Z.ltb_ge; lia).
  assert (H2 : (Z.of_nat (List.length xs + 1) <=? Z.of_nat (List.length xs))
               = false) by (apply Z.leb_gt; lia).
  rewrite H1, H2.
  simpl. rewrite Nat2Z.id, nth_error_app2 by lia.
  rewrite Nat.sub_diag. reflexivity.
Qed.

Lemma py_mod_bounds (a b : Z) :
  0 < b -> exists r, py_mod a b = Ok r /\ 0 <= r < b /\ r = a mod b.
Proof.
  intros Hb. unfold py_mod.
  replace (b =? 0) with false by (symmetry; apply Z.eqb_neq; lia).
  exists (a mod b). repeat split; apply Z.mod_pos_bound; assumption.
Qed.

(** ** Notes: successor, canonical root, equality *)

Lemma get_next_note_name_closed (n : Note) :
  get_next_note_name n = Ok (next_letter (note_name n)).
Proof. destruct n as [[] acc ty]; reflexivity. Qed.

Lemma NoteName_eqb_eq (x y : NoteName.t) : NoteName.eqb x y = true <-> x = y.
Proof. destruct x, y; cbv; split; congruence. Qed.

Lemma ScaleType_eqb_eq (x y : ScaleType.t) : ScaleType.eqb x y = true <-> x = y.
Proof. destruct x, y; cbv; split; congruence. Qed.

Lemma get_root_note_returns (n : Note) : returns (get_root_note n).
Proof. destruct n as [[] [] ty]; eexists; reflexivity. Qed.

Lemma Note_eq_returns (n m : Note) : returns (Note_eq n m).
Proof.
  unfold Note_eq.
  destruct (get_root_note_returns n) as [r ->].
  destruct (get_root_note_returns m) as [r' ->].
  eexists. reflexivity.
Qed.

Lemma Note_eq_refl (n : Note) : Note_eq n n = Ok true.
Proof. destruct n as [[] [] ty]; reflexivity. Qed.

(** The root of any Note is found in the chromatic ring. *)
Lemma root_in_alphabet_ordering (n : Note) :
  exists r i,
    get_root_note n = Ok r
    /\ list_index NoteOrdering.get_alphabet_ordering r = Ok i
    /\ 0 <= i < 12.
Proof.
  destruct n as [[] [] ty]; do 2 eexists;
    (split; [reflexivity | split; [vm_compute; reflexivity | lia]]).
Qed.

Lemma get_note_n_steps_away_ring (n : Note) (k : Z) :
  exists x,
    get_note_n_steps_away n k None = Ok x
    /\ In x NoteOrdering.get_alphabet_ordering.
Proof.
  unfold get_note_n_steps_away, ordering_or_default.
  destruct (root_in_alphabet_ordering n) as (r & i & -> & Hi & _).
  cbn [bind]. rewrite Hi. cbn [bind].
  destruct (py_mod_bounds (i + k)
              (Z.of_nat (List.length NoteOrdering.get_alphabet_ordering)))
    as (j & -> & Hj & _); [reflexivity |].
  cbn [bind].
  destruct (getitem_in_range NoteOrdering.get_alphabet_ordering j Hj)
    as (x & -> & Hx).
  exists x. split; [reflexivity | eapply nth_error_In; eassumption].
Qed.

Lemma get_steps_from_bounds (n m : Note) :
  exists k, get_steps_from n m None = Ok k /\ 0 <= k < 12.
Proof.
  unfold get_steps_from, ordering_or_default.
  destruct (root_in_alphabet_ordering n) as (r & i & -> & Hi & _).
  destruct (root_in_alphabet_ordering m) as (r' & i' & -> & Hi' & _).
  cbn [bind]. rewrite Hi', Hi. cbn [bind].
  destruct (py_mod_bounds (i' - i)
              (Z.of_nat (List.length NoteOrdering.get_alphabet_ordering)))
    as (j & -> & Hj & _); [reflexivity |].
  exists j. split; [reflexivity | exact Hj].
Qed.

(** ** Scales: the naive scale and the spelling loop *)

Lemma comprehension_returns {T U : Type} (f : T -> result U) (P : U -> Prop) :
  (forall x, exists y, f x = Ok y /\ P y) ->
  forall xs, exists ys,
    comprehension f xs = Ok ys
    /\ List.length ys = List.length xs
    /\ Forall P ys.
Proof.
  intros Hf xs. induction xs as [| x xs IH].
  - exists []. repeat split. constructor.
  - destruct (Hf x) as (y & Hy & HP). destruct IH as (ys & Hys & Hlen & Hall).
    exists (y :: ys). cbn [comprehension]. rewrite Hy, Hys. cbn [bind].
    repeat split; [cbn; congruence | constructor; assumption].
Qed.

Lemma get_basic_scale_returns (s : Scale) :
  exists bs,
    get_basic_scale s = Ok bs
    /\ List.length bs = 7%nat
    /\ Forall (fun x => In x NoteOrdering.get_alphabet_ordering) bs.
Proof.
  unfold get_basic_scale.
  destruct (comprehension_returns
              (fun step => get_note_n_steps_away (start_note s) step None)
              (fun x => In x NoteOrdering.get_alphabet_ordering)
              (fun k => get_note_n_steps_away_ring (start_note s) k)
              (get_scale_formula_cum_sum s)) as (bs & Hbs & Hlen & Hall).
  exists bs. split; [exact Hbs | split; [| exact Hall]].
  rewrite Hlen. unfold get_scale_formula_cum_sum. rewrite length_map.
  reflexivity.
Qed.

Lemma get_scale_body_appends (basic notes : list Note) (prev curr : Note)
  (k : Z) :
  getitem basic k = Ok curr ->
  exists x,
    get_scale_body basic (notes ++ [prev]) k = Ok ((notes ++ [prev]) ++ [x])
    /\ note_name x = next_letter (note_name prev)
    /\ (note_name curr = next_letter (note_name prev) -> x = curr).
Proof.
  intros Hcurr. unfold get_scale_body.
  rewrite getitem_last. cbn [bind]. rewrite Hcurr. cbn [bind].
  rewrite get_next_note_name_closed. cbn [bind].
  destruct (NoteName.eqb (note_name curr) (next_letter (note_name prev)))
    eqn:Hsame.
  - apply NoteName_eqb_eq in Hsame. exists curr. auto.
  - assert (Hdiff : note_name curr <> next_letter (note_name prev)).
    { intros H. apply NoteName_eqb_eq in H. congruence. }
    destruct (NoteName.value (next_letter (note_name prev))
              <? NoteName.value (note_name curr)).
    + unfold name_is_and_prev_eq.
      destruct (NoteName.eqb (next_letter (note_name prev)) NoteName.F)
        eqn:HF.
      * apply NoteName_eqb_eq in HF. rewrite HF.
        destruct (Note_eq_returns prev
                    (Note2 NoteName.E NoteAccidental.SHARP)) as [[] ->];
          cbn; eexists; (split; [reflexivity | split; [reflexivity |]]);
          intros; congruence.
      * cbn [bind].
        destruct (NoteName.eqb (next_letter (note_name prev)) NoteName.C)
          eqn:HC.
        -- apply NoteName_eqb_eq in HC. rewrite HC.
           destruct (Note_eq_returns prev
                       (Note2 NoteName.B NoteAccidental.SHARP)) as [[] ->];
             cbn; eexists; (split; [reflexivity | split; [reflexivity |]]);
             intros; congruence.
        -- cbn. eexists. split; [reflexivity | split; [reflexivity |]].
           intros; congruence.
    + eexists. split; [reflexivity | split; [reflexivity |]].
      intros; congruence.
Qed.

Lemma get_scale_loop (basic : list Note) (ks : list Z) :
  Forall (fun k => returns (getitem basic k)) ks ->
  forall notes prev, exists ext,
    for_loop ks (get_scale_body basic) (notes ++ [prev])
      = Ok ((notes ++ [prev]) ++ ext)
    /\ List.length ext = List.length ks
    /\ letter_chain prev ext.
Proof.
  induction 1 as [| k ks [curr Hk] _ IH]; intros notes prev.
  - exists []. rewrite app_nil_r. repeat split.
  - destruct (get_scale_body_appends basic notes prev curr k Hk)
      as (x & Hx & Hname & _).
    destruct (IH (notes ++ [prev]) x) as (ext & Hext & Hlen & Hchain).
    exists (x :: ext). cbn [for_loop]. rewrite Hx. cbn [bind]. rewrite Hext.
    split; [| split].
    + rewrite <- !app_assoc. reflexivity.
    + cbn. congruence.
    + split; assumption.
Qed.

Lemma get_scale_returns (s : Scale) :
  exists ext,
    get_scale s = Ok (copy (start_note s) :: ext)
    /\ List.length ext = 6%nat
    /\ letter_chain (copy (start_note s)) ext.
Proof.
  unfold get_scale.
  destruct (get_basic_scale_returns s) as (bs & -> & Hlen & _). cbn [bind].
  destruct (get_scale_loop bs (range 1 NOTES_IN_SCALE)) with
    (notes := @nil Note) (prev := copy (start_note s))
    as (ext & Hext & Hl & Hchain).
  - change (range 1 NOTES_IN_SCALE) with [1; 2; 3; 4; 5; 6].
    repeat constructor;
      match goal with
      | |- returns (getitem bs ?k) =>
          destruct (getitem_in_range bs k) as (v & Hv & _);
            [rewrite Hlen; lia | exists v; exact Hv]
      end.
  - exists ext. cbn [app] in Hext. rewrite Hext. repeat split; assumption.
Qed.

Lemma letter_chain_nth (ext : list Note) :
  forall prev i x y,
    letter_chain prev ext ->
    nth_error (prev :: ext) i = Some x ->
    nth_error (prev :: ext) (S i) = Some y ->
    note_name y = next_letter (note_name x).
Proof.
  induction ext as [| e ext IH]; intros prev i x y Hchain Hx Hy.
  - destruct i; cbn in Hy; [discriminate | destruct i; discriminate].
  - destruct Hchain as [He Hrest]. destruct i as [| i].
    + cbn in Hx, Hy. congruence.
    + cbn [nth_error] in Hx. eapply IH; eauto.
Qed.

Lemma for_loop_returns {S T : Type} (body : S -> T -> result S)
  (xs : list T) :
  (forall st x, In x xs -> returns (body st x)) ->
  forall st, returns (for_loop xs body st).
Proof.
  induction xs as [| x xs IH]; intros Hbody st.
  - exists st. reflexivity.
  - destruct (Hbody st x (or_introl eq_refl)) as [st' Hst'].
    cbn [for_loop]. rewrite Hst'. cbn [bind].
    apply IH. intros st0 y Hy. apply Hbody. right. exact Hy.
Qed.

Lemma ring_entries_chromatic (x : Note) :
  In x NoteOrdering.get_alphabet_ordering -> chromatic_ring_entry x.
Proof.
  intros Hin. split; [exact Hin |].
  cbn in Hin.
  repeat (destruct Hin as [<- | Hin]; [cbn; auto |]). contradiction.
Qed.

(** ** Dicts keyed by Notes *)

Section DictFacts.
Variable tuple_hash : NoteName.t * NoteAccidental.t -> Z.

Lemma key_match_returns (k key : Note) :
  returns (key_match tuple_hash k key).
Proof.
  unfold key_match.
  destruct (Note_hash tuple_hash k =? Note_hash tuple_hash key).
  - apply Note_eq_returns.
  - exists false. reflexivity.
Qed.

Lemma key_match_unequal (k key : Note) :
  Note_eq k key = Ok false -> key_match tuple_hash k key = Ok false.
Proof.
  intros H. unfold key_match. rewrite H.
  destruct (Note_hash tuple_hash k =? Note_hash tuple_hash key); reflexivity.
Qed.

Lemma key_match_same (k : Note) : key_match tuple_hash k k = Ok true.
Proof.
  unfold key_match. rewrite Z.eqb_refl. apply Note_eq_refl.
Qed.

Lemma dict_setitem_returns (d : list (Note * Note)) (key v : Note) :
  returns (dict_setitem tuple_hash d key v).
Proof.
  induction d as [| [k w] rest IH].
  - eexists. reflexivity.
  - cbn [dict_setitem].
    destruct (key_match_returns k key) as [[] ->]; cbn [bind].
    + eexists. reflexivity.
    + destruct IH as [rest' ->]. eexists. reflexivity.
Qed.

Lemma dict_setitem_fresh (d : list (Note * Note)) (key v : Note) :
  Forall (fun kw => Note_eq (fst kw) key = Ok false) d ->
  dict_setitem tuple_hash d key v = Ok (d ++ [(key, v)]).
Proof.
  induction 1 as [| [k w] rest Hk _ IH]; [reflexivity |].
  cbn [dict_setitem]. cbn [fst] in Hk.
  rewrite (key_match_unequal k key Hk). cbn [bind]. rewrite IH. reflexivity.
Qed.

Lemma dict_get_here (k w : Note) (rest : list (Note * Note)) :
  dict_get tuple_hash ((k, w) :: rest) k = Ok (Some w).
Proof. cbn [dict_get]. rewrite key_match_same. reflexivity. Qed.

Lemma dict_get_skip (k w key : Note) (rest : list (Note * Note)) :
  Note_eq k key = Ok false ->
  dict_get tuple_hash ((k, w) :: rest) key = dict_get tuple_hash rest key.
Proof.
  intros H. cbn [dict_get]. rewrite (key_match_unequal k key H). reflexivity.
Qed.

(** A key that is [==] to a stored key is missed when the hashes differ. *)
Lemma dict_get_misses_equal_key (v : Note) :
  tuple_hash (NoteName.D, NoteAccidental.FLAT)
    <> tuple_hash (NoteName.C, NoteAccidental.SHARP) ->
  Note_eq notes.C_SHARP notes.D_FLAT = Ok true
  /\ dict_get tuple_hash [(notes.C_SHARP, v)] notes.D_FLAT = Ok None.
Proof.
  intros Hh. split; [reflexivity |].
  cbn [dict_get]. unfold key_match, Note_hash.
  replace (tuple_hash (Note_hash_args notes.C_SHARP)
           =? tuple_hash (Note_hash_args notes.D_FLAT)) with false.
  - reflexivity.
  - symmetry. apply Z.eqb_neq. intros H. apply Hh. symmetry. exact H.
Qed.

Lemma get_transpose_same_mode (self other_scale : Scale) :
  scale_type self = scale_type other_scale ->
  returns (get_transpose tuple_hash self other_scale).
Proof.
  intros Hmode. unfold get_transpose.
  replace (ScaleType.eqb (scale_type self) (scale_type other_scale))
    with true by (symmetry; apply ScaleType_eqb_eq; exact Hmode).
  cbn [negb].
  destruct (get_scale_returns self) as (e1 & -> & Hl1 & _).
  destruct (get_scale_returns other_scale) as (e2 & -> & Hl2 & _).
  cbn [bind]. apply for_loop_returns. intros d i Hi.
  assert (Hrange : 0 <= i < 7).
  { change (range 0 NOTES_IN_SCALE) with [0; 1; 2; 3; 4; 5; 6] in Hi.
    cbn in Hi. lia. }
  destruct (getitem_in_range (copy (start_note self) :: e1) i)
    as (k & -> & _); [cbn [List.length]; lia |].
  destruct (getitem_in_range (copy (start_note other_scale) :: e2) i)
    as (v & -> & _); [cbn [List.length]; lia |].
  cbn [bind]. apply dict_setitem_returns.
Qed.

Lemma get_transpose_other_mode (self other_scale : Scale) :
  scale_type self <> scale_type other_scale ->
  get_transpose tuple_hash self other_scale
    = Raise (ValueError "Cannot transpose scales of different types").
Proof.
  intros Hmode. unfold get_transpose.
  destruct (ScaleType.eqb (scale_type self) (scale_type other_scale))
    eqn:Heq; [| reflexivity].
  apply ScaleType_eqb_eq in Heq. contradiction.
Qed.
End DictFacts.

(** ** transpose_notes_from *)

Lemma transpose_loop (self original_scale : Scale) (notes : list Note) :
  forall acc, exists out,
    for_loop notes
      (fun transposed note =>
         steps_from_home_note <-
           get_steps_from (start_note original_scale) note None ;;
         transposed_note <-
           get_note_n_steps_away (start_note self) steps_from_home_note None ;;
         Ok (transposed ++ [transposed_note]))
      acc = Ok (acc ++ out)
    /\ Forall2 (moved_by_distance self original_scale) notes out
    /\ Forall chromatic_ring_entry out.
Proof.
  induction notes as [| note notes IH]; intros acc.
  - exists []. rewrite app_nil_r. repeat split; constructor.
  - destruct (get_steps_from_bounds (start_note original_scale) note)
      as (steps & Hsteps & Hb).
    destruct (get_note_n_steps_away_ring (start_note self) steps)
      as (moved & Hmoved & Hin).
    destruct (IH (acc ++ [moved])) as (out & Hout & Hrel & Hring).
    exists (moved :: out). cbn [for_loop].
    rewrite Hsteps. cbn [bind]. rewrite Hmoved. cbn [bind]. rewrite Hout.
    split; [rewrite <- app_assoc; reflexivity | split].
    + constructor; [| exact Hrel]. exists steps. auto.
    + constructor; [apply ring_entries_chromatic; exact Hin | exact Hring].
Qed.

Lemma transpose_notes_from_other_mode (self original_scale : Scale)
  (notes : list Note) :
  scale_type original_scale <> scale_type self ->
  transpose_notes_from self original_scale notes
    = Raise (ValueError "Cannot transpose scales of different types").
Proof.
  intros Hmode. unfold transpose_notes_from.
  destruct (ScaleType.eqb (scale_type original_scale) (scale_type self))
    eqn:Heq; [| reflexivity].
  apply ScaleType_eqb_eq in Heq. contradiction.
Qed.

Lemma transpose_notes_from_same_mode (self original_scale : Scale)
  (notes : list Note) :
  scale_type original_scale = scale_type self ->
  exists out,
    transpose_notes_from self original_scale notes = Ok out
    /\ Forall2 (moved_by_distance self original_scale) notes out
    /\ Forall chromatic_ring_entry out.
Proof.
  intros Hmode. unfold transpose_notes_from.
  replace (ScaleType.eqb (scale_type original_scale) (scale_type self))
    with true by (symmetry; apply ScaleType_eqb_eq; exact Hmode).
  cbn [negb].
  destruct (transpose_loop self original_scale notes []) as (out & H & Hrest).
  exists out. split; [exact H | exact Hrest].
Qed.

(** * The claims *)

(** C3 (as stated, refuted at C Ionian): the seven entries of the Ionian
    formula do not add up to 12. *)
Lemma scale_formula_sum_not_octave :
  sum (get_scale_formula (Scale__init__ notes.C None)) <> 12.
Proof. vm_compute. discriminate. Qed.

(** C3 (amended): for every Scale the formula has 7 entries and their sum is
    11 for Ionian and 10 for Aeolian. *)
Theorem scale_formula_sum (s : Scale) :
  List.length (get_scale_formula s) = 7%nat
  /\ sum (get_scale_formula s)
     = match scale_type s with
       | ScaleType.IONIAN => 11
       | ScaleType.AEOLIAN => 10
       end.
Proof.
  unfold get_scale_formula. destruct (scale_type s); split; reflexivity.
Qed.

(** C9 (as stated, refuted at C Ionian): the last cumulative value of the
    Ionian formula is not 10. *)
Lemma cum_sum_last_not_ten :
  getitem (get_scale_formula_cum_sum (Scale__init__ notes.C None)) (-1)
    <> Ok 10.
Proof. vm_compute. discriminate. Qed.

(** C9 (amended): for every Scale, [get_scale_formula_cum_sum] returns the 7
    prefix sums of the Scale's formula, and the last cumulative value is 11
    for Ionian and 10 for Aeolian. *)
Theorem scale_formula_cum_sum_prefix_sums (s : Scale) :
  get_scale_formula_cum_sum s = spec_prefix_sums 0 (get_scale_formula s)
  /\ List.length (get_scale_formula_cum_sum s) = 7%nat
  /\ getitem (get_scale_formula_cum_sum s) (-1)
     = Ok match scale_type s with
          | ScaleType.IONIAN => 11
          | ScaleType.AEOLIAN => 10
          end.
Proof.
  unfold get_scale_formula_cum_sum, get_scale_formula.
  destruct (scale_type s); repeat split; reflexivity.
Qed.

(** C10: a Note built from a letter alone is the Note built with an explicit
    natural (the same value, so every operation agrees on the two), and a
    Scale built from a start Note alone is the Ionian Scale on it, with
    formula [0,2,2,1,2,2,2]. *)
Theorem constructor_defaults (nm : NoteName.t) (start : Note) :
  Note__init__ nm None None
    = Note__init__ nm (Some NoteAccidental.NATURAL) None
  /\ accidental (Note__init__ nm None None) = NoteAccidental.NATURAL
  /\ Note_eq (Note__init__ nm None None)
       (Note__init__ nm (Some NoteAccidental.NATURAL) None) = Ok true
  /\ Scale__init__ start None = Scale__init__ start (Some ScaleType.IONIAN)
  /\ scale_type (Scale__init__ start None) = ScaleType.IONIAN
  /\ get_scale_formula (Scale__init__ start None) = [0; 2; 2; 1; 2; 2; 2].
Proof.
  repeat split. apply Note_eq_refl.
Qed.

(** C8: canonicalization is idempotent up to the program's Note equality:
    for every Note n, both root calls return, and
    [n.get_root_note().get_root_note() == n.get_root_note()] is true. *)
Theorem get_root_note_idempotent (n : Note) :
  exists r rr,
    get_root_note n = Ok r
    /\ get_root_note r = Ok rr
    /\ Note_eq rr r = Ok true.
Proof.
  destruct n as [[] [] ty]; do 2 eexists; repeat split.
Qed.

(** C2 (evaluated at Db and C#): the two Notes are [==], yet [__hash__]
    hands different tuples to the built-in hash, so a hash that tells the
    tuples apart tells the Notes apart. *)
Theorem hash_ignores_canonical_root :
  Note_eq notes.D_FLAT notes.C_SHARP = Ok true
  /\ Note_hash_args notes.D_FLAT = (NoteName.D, NoteAccidental.FLAT)
  /\ Note_hash_args notes.C_SHARP = (NoteName.C, NoteAccidental.SHARP)
  /\ Note_hash_args notes.D_FLAT <> Note_hash_args notes.C_SHARP
  /\ exists tuple_hash,
       Note_hash tuple_hash notes.D_FLAT <> Note_hash tuple_hash notes.C_SHARP.
Proof.
  repeat split; try discriminate.
  exists (fun p => NoteName.value (fst p)). cbv. discriminate.
Qed.

(** C1 (evaluated at C Aeolian): degree 5 is re-spelled on the expected
    letter A as A-sharp, while the naive pick is G-sharp, and the two are
    not [==]. *)
Theorem get_scale_c_aeolian_degree_5 :
  let s := Scale__init__ notes.C (Some ScaleType.AEOLIAN) in
  get_basic_scale s
    = Ok [notes.C; notes.D; notes.D_SHARP; notes.F; notes.G; notes.G_SHARP;
          notes.A_SHARP]
  /\ get_scale s
     = Ok [notes.C; notes.D; notes.E_FLAT; notes.F; notes.G; notes.A_SHARP;
           notes.B_FLAT]
  /\ Note_eq notes.A_SHARP notes.G_SHARP = Ok false.
Proof. repeat split. Qed.

(** C4: for every start Note and Mode, [get_scale] returns 7 Notes; degree 0
    has the start Note's letter and accidental; each degree's letter is the
    cyclic successor of the one before; and the 7 letters are pairwise
    distinct and cover all 7 letter names. *)
Theorem get_scale_letter_sequence (s : Scale) :
  exists first rest,
    get_scale s = Ok (first :: rest)
    /\ List.length (first :: rest) = 7%nat
    /\ note_name first = note_name (start_note s)
    /\ accidental first = accidental (start_note s)
    /\ (forall i x y,
          nth_error (first :: rest) i = Some x ->
          nth_error (first :: rest) (S i) = Some y ->
          get_next_note_name x = Ok (note_name y))
    /\ NoDup (map note_name (first :: rest))
    /\ (forall nm, In nm (map note_name (first :: rest))).
Proof.
  destruct (get_scale_returns s) as (ext & Hs & Hlen & Hchain).
  exists (copy (start_note s)), ext.
  split; [exact Hs |].
  split; [cbn [List.length]; congruence |].
  split; [reflexivity |].
  split; [reflexivity |].
  split.
  { intros i x y Hx Hy. rewrite get_next_note_name_closed. f_equal.
    symmetry. eapply letter_chain_nth; eauto. }
  do 7 (destruct ext as [| ? ext]; try discriminate Hlen).
  cbn [letter_chain] in Hchain.
  destruct Hchain as (H1 & H2 & H3 & H4 & H5 & H6 & _).
  cbn [map]. rewrite H6, H5, H4, H3, H2, H1.
  change (note_name (copy (start_note s))) with (note_name (start_note s)).
  split.
  - destruct (note_name (start_note s)); cbn [next_letter];
      repeat constructor; cbn [In]; intuition discriminate.
  - intros nm.
    destruct (note_name (start_note s)), nm; cbn [next_letter In]; tauto.
Qed.

(** Whatever the built-in tuple hash is, the dict returned by
    [Scale(C).get_transpose(Scale(G#))] holds, in degree order, C to G#,
    D to A#, E to B#, F to C#, G to D#, A to E# and B to F double-sharp, and
    looking up each of these stored keys gives its value. *)
Lemma get_transpose_C_to_G_sharp_pairs
  (tuple_hash : NoteName.t * NoteAccidental.t -> Z) :
  let d := [ (notes.C, notes.G_SHARP); (notes.D, notes.A_SHARP);
             (notes.E, notes.B_SHARP); (notes.F, notes.C_SHARP);
             (notes.G, notes.D_SHARP); (notes.A, notes.E_SHARP);
             (notes.B, notes.F_DOUBLE_SHARP) ] in
  get_transpose tuple_hash (Scale__init__ notes.C None)
    (Scale__init__ notes.G_SHARP None) = Ok d
  /\ Forall (fun kv => dict_get tuple_hash d (fst kv) = Ok (Some (snd kv))) d.
Proof.
  intros d. split.
  - unfold get_transpose. cbn [negb ScaleType.eqb].
    change (get_scale (Scale__init__ notes.C None))
      with (Ok [notes.C; notes.D; notes.E; notes.F; notes.G; notes.A;
                notes.B]).
    change (get_scale (Scale__init__ notes.G_SHARP None))
      with (Ok [notes.G_SHARP; notes.A_SHARP; notes.B_SHARP; notes.C_SHARP;
                notes.D_SHARP; notes.E_SHARP; notes.F_DOUBLE_SHARP]).
    change (range 0 NOTES_IN_SCALE) with [0; 1; 2; 3; 4; 5; 6].
    cbn [bind scale_type Scale__init__ Z.eqb ScaleType.value Pos.eqb].
    do 7 (cbn [for_loop];
          repeat match goal with
                 | |- context [getitem ?l ?i] =>
                     let v := eval vm_compute in (getitem l i) in
                     change (getitem l i) with v; cbn [bind]
                 end;
          rewrite dict_setitem_fresh by (repeat constructor);
          cbn [bind app]).
    reflexivity.
  - subst d.
    repeat (constructor;
            [cbn [fst snd];
             repeat (rewrite dict_get_skip by reflexivity);
             apply dict_get_here |]).
    constructor.
Qed.

(** C5 (evaluated at the key B-sharp): [Scale(C).get_transpose(Scale(G#))]
    returns the seven positional pairs, and the key C gives G#; but the key
    B-sharp, which is [==] to C, gives G# only when the built-in hash of
    (B, SHARP) collides with that of (C, NATURAL), and nothing otherwise:
    the dict is keyed by the literal fields, not by canonical equality. *)
Theorem get_transpose_C_to_G_sharp_equal_key
  (tuple_hash : NoteName.t * NoteAccidental.t -> Z) :
  let d := [ (notes.C, notes.G_SHARP); (notes.D, notes.A_SHARP);
             (notes.E, notes.B_SHARP); (notes.F, notes.C_SHARP);
             (notes.G, notes.D_SHARP); (notes.A, notes.E_SHARP);
             (notes.B, notes.F_DOUBLE_SHARP) ] in
  get_transpose tuple_hash (Scale__init__ notes.C None)
    (Scale__init__ notes.G_SHARP None) = Ok d
  /\ Note_eq notes.C notes.B_SHARP = Ok true
  /\ Note_hash_args notes.C <> Note_hash_args notes.B_SHARP
  /\ dict_get tuple_hash d notes.C = Ok (Some notes.G_SHARP)
  /\ dict_get tuple_hash d notes.B_SHARP
     = Ok (if tuple_hash (NoteName.C, NoteAccidental.NATURAL)
              =? tuple_hash (NoteName.B, NoteAccidental.SHARP)
           then Some notes.G_SHARP
           else None)
  /\ dict_get (fun p => NoteName.value (fst p)) d notes.B_SHARP = Ok None.
Proof.
  intros d.
  split; [exact (proj1 (get_transpose_C_to_G_sharp_pairs tuple_hash)) |].
  split; [reflexivity |].
  split; [discriminate |].
  split; [apply dict_get_here |].
  split; [| reflexivity].
  subst d. cbn [dict_get]. unfold key_match at 1, Note_hash.
  change (Note_hash_args notes.C) with (NoteName.C, NoteAccidental.NATURAL).
  change (Note_hash_args notes.B_SHARP)
    with (NoteName.B, NoteAccidental.SHARP).
  destruct (tuple_hash (NoteName.C, NoteAccidental.NATURAL)
            =? tuple_hash (NoteName.B, NoteAccidental.SHARP)).
  - reflexivity.
  - cbn [bind].
    repeat (rewrite key_match_unequal by reflexivity; cbn [bind]).
    reflexivity.
Qed.

(** C6: when the two Scales have the same mode, [transpose_notes_from]
    returns one Note per input Note, each being the new start Note moved
    forward by the input Note's forward distance from the original start
    Note, and each an entry of the 12-entry chromatic ring, hence spelled
    natural or sharp; and transposing [C, G, C#] from G Ionian to C Ionian
    gives [F, C, F#]. *)
Theorem transpose_notes_from_chromatic (self original_scale : Scale)
  (notes : list Note)
  (Hmode : scale_type original_scale = scale_type self) :
  (exists out,
     transpose_notes_from self original_scale notes = Ok out
     /\ Forall2 (moved_by_distance self original_scale) notes out
     /\ Forall chromatic_ring_entry out)
  /\ transpose_notes_from (Scale__init__ notes.C None)
       (Scale__init__ notes.G None) [notes.C; notes.G; notes.C_SHARP]
     = Ok [notes.F; notes.C; notes.F_SHARP].
Proof.
  split; [| reflexivity].
  apply transpose_notes_from_same_mode. exact Hmode.
Qed.

(** The same-mode transposition of [C, G, C#] from G Ionian to C Ionian. *)
Lemma transpose_notes_from_chromatic_witness :
  scale_type (Scale__init__ notes.G None)
    = scale_type (Scale__init__ notes.C None)
  /\ exists out,
       transpose_notes_from (Scale__init__ notes.C None)
         (Scale__init__ notes.G None) [notes.C; notes.G; notes.C_SHARP]
         = Ok out
       /\ Forall2 (moved_by_distance (Scale__init__ notes.C None)
                     (Scale__init__ notes.G None))
            [notes.C; notes.G; notes.C_SHARP] out
       /\ Forall chromatic_ring_entry out.
Proof.
  split; [reflexivity |].
  apply (transpose_notes_from_chromatic (Scale__init__ notes.C None)
           (Scale__init__ notes.G None) [notes.C; notes.G; notes.C_SHARP]).
  reflexivity.
Defined.

(** C7: [get_transpose] and [transpose_notes_from] raise exactly when the
    modes of the two Scales differ, and return a result exactly when the
    modes are equal; a call never does both. *)
Theorem transposition_fails_iff_modes_differ
  (tuple_hash : NoteName.t * NoteAccidental.t -> Z)
  (self other_scale : Scale) (notes : list Note) :
  (raises (get_transpose tuple_hash self other_scale)
   <-> scale_type self <> scale_type other_scale)
  /\ (returns (get_transpose tuple_hash self other_scale)
      <-> scale_type self = scale_type other_scale)
  /\ (raises (transpose_notes_from self other_scale notes)
      <-> scale_type other_scale <> scale_type self)
  /\ (returns (transpose_notes_from self other_scale notes)
      <-> scale_type other_scale = scale_type self).
Proof.
  assert (Hdec : forall a b : ScaleType.t, a = b \/ a <> b).
  { intros [] []; (left; reflexivity) || (right; discriminate). }
  repeat split.
  - intros Hr Heq. apply (raises_not_returns _ Hr).
    apply get_transpose_same_mode. exact Heq.
  - intros Hne. eexists. apply get_transpose_other_mode. exact Hne.
  - intros [v Hv]. destruct (Hdec (scale_type self) (scale_type other_scale))
      as [Heq | Hne]; [exact Heq |].
    rewrite (get_transpose_other_mode _ _ _ Hne) in Hv. discriminate.
  - apply get_transpose_same_mode.
  - intros Hr Heq. apply (raises_not_returns _ Hr).
    destruct (transpose_notes_from_same_mode self other_scale notes Heq)
      as (out & Hout & _).
    exists out. exact Hout.
  - intros Hne. eexists.
    apply transpose_notes_from_other_mode. exact Hne.
  - intros [v Hv]. destruct (Hdec (scale_type other_scale) (scale_type self))
      as [Heq | Hne]; [exact Heq |].
    rewrite (transpose_notes_from_other_mode _ _ _ Hne) in Hv. discriminate.
  - intros Heq.
    destruct (transpose_notes_from_same_mode self other_scale notes Heq)
      as (out & Hout & _).
    exists out. exact Hout.
Qed.

(** * Further properties of the note arithmetic *)

Lemma alphabet_ordering_entry (j : Z) :
  0 <= j < 12 ->
  exists x,
    getitem NoteOrdering.get_alphabet_ordering j = Ok x
    /\ get_root_note x = Ok x
    /\ list_index NoteOrdering.get_alphabet_ordering x = Ok j.
Proof.
  intros Hj.
  assert (Hcases : j = 0 \/ j = 1 \/ j = 2 \/ j = 3 \/ j = 4 \/ j = 5
                   \/ j = 6 \/ j = 7 \/ j = 8 \/ j = 9 \/ j = 10 \/ j = 11)
    by lia.
  repeat (destruct Hcases as [-> | Hcases]);
    try subst j; eexists; repeat split; reflexivity.
Qed.

Lemma chromatic_index_bounds (n : Note) :
  exists i, chromatic_index n = Ok i /\ 0 <= i < 12.
Proof.
  unfold chromatic_index.
  destruct (root_in_alphabet_ordering n) as (r & i & -> & Hi & Hb).
  exists i. split; [exact Hi | exact Hb].
Qed.

Lemma get_note_n_steps_away_index (n : Note) (k i : Z) :
  chromatic_index n = Ok i ->
  get_note_n_steps_away n k None
    = getitem NoteOrdering.get_alphabet_ordering ((i + k) mod 12).
Proof.
  unfold chromatic_index, get_note_n_steps_away, ordering_or_default.
  destruct (get_root_note n) as [r |]; [| discriminate].
  cbn [bind]. intros ->. reflexivity.
Qed.

Lemma get_steps_from_index (n m : Note) (i j : Z) :
  chromatic_index n = Ok i ->
  chromatic_index m = Ok j ->
  get_steps_from n m None = Ok ((j - i) mod 12).
Proof.
  unfold chromatic_index, get_steps_from, ordering_or_default.
  destruct (get_root_note n) as [r |]; [| discriminate].
  destruct (get_root_note m) as [r' |]; [| discriminate].
  cbn [bind]. intros -> ->. reflexivity.
Qed.

Lemma chromatic_index_of_entry (j : Z) (x : Note) :
  0 <= j < 12 ->
  getitem NoteOrdering.get_alphabet_ordering j = Ok x ->
  chromatic_index x = Ok j.
Proof.
  intros Hj Hx.
  destruct (alphabet_ordering_entry j Hj) as (y & Hy & Hroot & Hidx).
  assert (y = x) by congruence. subst y.
  unfold chromatic_index. rewrite Hroot. exact Hidx.
Qed.

(** X1: the canonical root is always spelled natural or sharp and carries no
    note type. *)
Theorem get_root_note_natural_or_sharp (n : Note) :
  exists r,
    get_root_note n = Ok r
    /\ (accidental r = NoteAccidental.NATURAL
        \/ accidental r = NoteAccidental.SHARP)
    /\ note_type r = None.
Proof.
  destruct n as [[] [] ty]; eexists; (split; [reflexivity |]); cbn; auto.
Qed.

(** X2: the Notes that are their own root are exactly the 12 entries of the
    chromatic ring. *)
Theorem get_root_note_fixed_iff_ring (n : Note) :
  get_root_note n = Ok n <-> In n NoteOrdering.get_alphabet_ordering.
Proof.
  split.
  - destruct n as [[] [] [ty |]]; cbn; intros H; try discriminate H; tauto.
  - intros H. cbn in H.
    repeat (destruct H as [<- | H]; [reflexivity |]). contradiction.
Qed.

Lemma NoteAccidental_eqb_eq (x y : NoteAccidental.t) :
  NoteAccidental.eqb x y = true <-> x = y.
Proof. destruct x, y; cbv; split; congruence. Qed.

Lemma Note_eq_true_iff (a b : Note) :
  Note_eq a b = Ok true
  <-> exists ra rb,
        get_root_note a = Ok ra /\ get_root_note b = Ok rb
        /\ note_name ra = note_name rb /\ accidental ra = accidental rb.
Proof.
  unfold Note_eq.
  destruct (get_root_note_returns a) as [ra ->].
  destruct (get_root_note_returns b) as [rb ->].
  cbn [bind]. split.
  - intros H. injection H as H. apply andb_true_iff in H as [Hn Ha].
    apply NoteName_eqb_eq in Hn. apply NoteAccidental_eqb_eq in Ha.
    exists ra, rb. auto.
  - intros (ra' & rb' & Ha & Hb & Hn & Hacc).
    injection Ha as <-. injection Hb as <-. f_equal.
    apply andb_true_iff. split;
      [apply NoteName_eqb_eq | apply NoteAccidental_eqb_eq]; assumption.
Qed.

(** X3: [==] on Notes always answers, is reflexive and symmetric, and does
    not look at the note type. *)
Theorem Note_eq_reflexive_symmetric (n m : Note) (ty : option NoteType.t) :
  Note_eq n n = Ok true
  /\ Note_eq n m = Note_eq m n
  /\ returns (Note_eq n m)
  /\ Note_eq (mkNote (note_name n) (accidental n) ty) m = Note_eq n m.
Proof.
  split; [apply Note_eq_refl |].
  split; [| split; [apply Note_eq_returns |]].
  - destruct n as [[] [] tn], m as [[] [] tm]; reflexivity.
  - destruct n as [[] [] tn]; reflexivity.
Qed.

(** X4: [==] on Notes is transitive. *)
Theorem Note_eq_transitive (a b c : Note) :
  Note_eq a b = Ok true -> Note_eq b c = Ok true -> Note_eq a c = Ok true.
Proof.
  intros Hab Hbc.
  apply Note_eq_true_iff in Hab as (ra & rb & Ha & Hb & Hn1 & Ha1).
  apply Note_eq_true_iff in Hbc as (rb' & rc & Hb' & Hc & Hn2 & Ha2).
  assert (rb' = rb) by congruence. subst rb'.
  apply Note_eq_true_iff. exists ra, rc. repeat split; congruence.
Qed.

Lemma Note_eq_transitive_witness :
  Note_eq notes.B_SHARP notes.C = Ok true
  /\ Note_eq notes.C (Note2 NoteName.B NoteAccidental.DOUBLE_SHARP) = Ok true
  /\ Note_eq notes.B_SHARP (Note2 NoteName.B NoteAccidental.DOUBLE_SHARP)
     = Ok true.
Proof.
  split; [reflexivity | split; [reflexivity |]].
  apply (Note_eq_transitive notes.B_SHARP notes.C
           (Note2 NoteName.B NoteAccidental.DOUBLE_SHARP)); reflexivity.
Defined.

(** X5: every Note is [==] to exactly one entry of the chromatic ring, except
    C-flat and F-flat, which are [==] to none. *)
Theorem ring_entries_equal_to_note (n : Note) :
  List.length
    (filter (fun x => eq_holds x n) NoteOrdering.get_alphabet_ordering)
  = if flat_of_C_or_F n then 0%nat else 1%nat.
Proof. destruct n as [[] [] ty]; reflexivity. Qed.

(** X6: moving [a] steps and then [b] steps is moving [a + b] steps. *)
Theorem get_note_n_steps_away_add (n : Note) (a b : Z) :
  exists x,
    get_note_n_steps_away n a None = Ok x
    /\ get_note_n_steps_away x b None = get_note_n_steps_away n (a + b) None.
Proof.
  destruct (chromatic_index_bounds n) as (i & Hi & Hb).
  assert (Hj : 0 <= (i + a) mod 12 < 12) by (apply Z.mod_pos_bound; lia).
  destruct (getitem_in_range NoteOrdering.get_alphabet_ordering
              ((i + a) mod 12)) as (x & Hx & _); [exact Hj |].
  exists x. split.
  - rewrite (get_note_n_steps_away_index n a i Hi). exact Hx.
  - rewrite (get_note_n_steps_away_index x b ((i + a) mod 12)
               (chromatic_index_of_entry _ _ Hj Hx)).
    rewrite (get_note_n_steps_away_index n (a + b) i Hi).
    f_equal. rewrite Zplus_mod_idemp_l. f_equal. lia.
Qed.

(** X7: the number of steps counts modulo 12, for negative numbers too. *)
Theorem get_note_n_steps_away_mod_12 (n : Note) (k : Z) :
  get_note_n_steps_away n k None = get_note_n_steps_away n (k mod 12) None
  /\ get_note_n_steps_away n (k + 12) None = get_note_n_steps_away n k None
  /\ get_note_n_steps_away n (k - 12) None = get_note_n_steps_away n k None.
Proof.
  destruct (chromatic_index_bounds n) as (i & Hi & Hb).
  rewrite !(get_note_n_steps_away_index n _ i Hi).
  repeat split; f_equal.
  - rewrite Zplus_mod_idemp_r. reflexivity.
  - replace (i + (k + 12)) with (i + k + 1 * 12) by lia.
    apply Z_mod_plus_full.
  - replace (i + (k - 12)) with (i + k + (-1) * 12) by lia.
    apply Z_mod_plus_full.
Qed.

(** X8: going [k] steps and then [12 - k] steps comes back to the ring entry
    of the Note, which is [==] to the Note unless it is C-flat or F-flat. *)
Theorem steps_away_round_trip (n : Note) (k : Z) :
  exists x y,
    get_note_n_steps_away n k None = Ok x
    /\ get_note_n_steps_away x (12 - k) None = Ok y
    /\ get_note_n_steps_away n 0 None = Ok y
    /\ eq_holds y n = negb (flat_of_C_or_F n).
Proof.
  destruct (chromatic_index_bounds n) as (i & Hi & Hb).
  assert (Hj : 0 <= (i + k) mod 12 < 12) by (apply Z.mod_pos_bound; lia).
  destruct (getitem_in_range NoteOrdering.get_alphabet_ordering
              ((i + k) mod 12)) as (x & Hx & _); [exact Hj |].
  assert (Hy : exists y, get_note_n_steps_away n 0 None = Ok y
                         /\ eq_holds y n = negb (flat_of_C_or_F n)).
  { destruct n as [[] [] ty]; eexists; split; reflexivity. }
  destruct Hy as (y & Hy & Heq).
  exists x, y.
  split; [rewrite (get_note_n_steps_away_index n k i Hi); exact Hx |].
  split; [| split; assumption].
  rewrite (get_note_n_steps_away_index x (12 - k) ((i + k) mod 12)
             (chromatic_index_of_entry _ _ Hj Hx)).
  rewrite (get_note_n_steps_away_index n 0 i Hi) in Hy.
  rewrite <- Hy. f_equal.
  rewrite Zplus_mod_idemp_l.
  replace (i + k + (12 - k)) with (i + 0 + 1 * 12) by lia.
  apply Z_mod_plus_full.
Qed.

(** X9: the distance from a Note to the Note [k] steps away is [k mod 12]. *)
Theorem get_steps_from_steps_away (n : Note) (k : Z) :
  exists x,
    get_note_n_steps_away n k None = Ok x
    /\ get_steps_from n x None = Ok (k mod 12).
Proof.
  destruct (chromatic_index_bounds n) as (i & Hi & Hb).
  assert (Hj : 0 <= (i + k) mod 12 < 12) by (apply Z.mod_pos_bound; lia).
  destruct (getitem_in_range NoteOrdering.get_alphabet_ordering
              ((i + k) mod 12)) as (x & Hx & _); [exact Hj |].
  exists x. split.
  - rewrite (get_note_n_steps_away_index n k i Hi). exact Hx.
  - rewrite (get_steps_from_index n x i ((i + k) mod 12) Hi
               (chromatic_index_of_entry _ _ Hj Hx)).
    f_equal. rewrite Zminus_mod_idemp_l. f_equal. lia.
Qed.

(** X10: moving a Note forward by its distance to another Note lands on the
    ring entry of that other Note. *)
Theorem steps_away_by_steps_from (n m : Note) :
  exists d x,
    get_steps_from n m None = Ok d
    /\ 0 <= d < 12
    /\ get_note_n_steps_away n d None = Ok x
    /\ get_note_n_steps_away m 0 None = Ok x.
Proof.
  destruct (chromatic_index_bounds n) as (i & Hi & Hbi).
  destruct (chromatic_index_bounds m) as (j & Hj & Hbj).
  destruct (getitem_in_range NoteOrdering.get_alphabet_ordering j)
    as (x & Hx & _); [exact Hbj |].
  exists ((j - i) mod 12), x.
  split; [apply get_steps_from_index; assumption |].
  split; [apply Z.mod_pos_bound; lia |].
  rewrite (get_note_n_steps_away_index n _ i Hi).
  rewrite (get_note_n_steps_away_index m _ j Hj).
  rewrite Zplus_mod_idemp_r.
  replace (i + (j - i)) with j by lia. rewrite Z.add_0_r.
  rewrite (Z.mod_small j 12 Hbj). split; exact Hx.
Qed.

(** X11: a Note is 0 steps from itself, and the distances there and back add
    up to 0 or 12. *)
Theorem get_steps_from_there_and_back (n m : Note) :
  get_steps_from n n None = Ok 0
  /\ exists d e,
       get_steps_from n m None = Ok d
       /\ get_steps_from m n None = Ok e
       /\ (d + e = 0 \/ d + e = 12).
Proof.
  destruct (chromatic_index_bounds n) as (i & Hi & Hbi).
  destruct (chromatic_index_bounds m) as (j & Hj & Hbj).
  split.
  - rewrite (get_steps_from_index n n i i Hi Hi). rewrite Z.sub_diag.
    reflexivity.
  - exists ((j - i) mod 12), ((i - j) mod 12).
    split; [apply get_steps_from_index; assumption |].
    split; [apply get_steps_from_index; assumption |].
    assert (H12 : 0 < 12) by lia.
    pose proof (Z.mod_pos_bound (j - i) 12 H12).
    pose proof (Z.mod_pos_bound (i - j) 12 H12).
    assert (Hz : ((j - i) mod 12 + (i - j) mod 12) mod 12 = 0).
    { rewrite <- Zplus_mod. replace (j - i + (i - j)) with 0 by lia.
      reflexivity. }
    apply Z.mod_divide in Hz; [| lia]. destruct Hz as [q Hq]. lia.
Qed.

(** X12: the successor letter never fails to exist, depends on the letter
    alone, is never the letter itself, and every letter is the successor of
    some letter: equal successors mean equal letters. *)
Theorem get_next_note_name_bijective (n m : Note) :
  returns (get_next_note_name n)
  /\ get_next_note_name n <> Ok (note_name n)
  /\ (get_next_note_name n = get_next_note_name m
      <-> note_name n = note_name m)
  /\ exists p, get_next_note_name p = Ok (note_name n).
Proof.
  split; [rewrite get_next_note_name_closed; eexists; reflexivity |].
  split; [destruct n as [[] acc ty]; discriminate |].
  split.
  - rewrite !get_next_note_name_closed. split.
    + destruct n as [[] an tn], m as [[] am tm]; cbn; intros H;
        try discriminate H; reflexivity.
    + intros ->. reflexivity.
  - destruct n as [[] acc ty]; cbn [note_name];
      [exists notes.G | exists notes.A | exists notes.B | exists notes.C
       | exists notes.D | exists notes.E | exists notes.F]; reflexivity.
Qed.

(** X13: the string form of a Note tells letter and accidental apart: two
    Notes print alike exactly when they have the same letter and the same
    accidental. *)
Theorem Note_repr_injective (n m : Note) :
  Note_repr n = Note_repr m
  <-> note_name n = note_name m /\ accidental n = accidental m.
Proof.
  split.
  - destruct n as [[] [] tn], m as [[] [] tm]; cbn; intros H;
      try discriminate H; split; reflexivity.
  - destruct n as [nn an tn], m as [nm am tm]. cbn.
    intros [-> ->]. reflexivity.
Qed.

(** ** A caller-supplied ordering *)

Lemma list_index_found (order : list Note) (r : Note) :
  existsb (fun x => eq_holds x r) order = true ->
  exists i,
    list_index order r = Ok i /\ 0 <= i < Z.of_nat (List.length order).
Proof.
  induction order as [| y rest IH]; [discriminate |].
  cbn [existsb list_index List.length]. unfold eq_holds at 1.
  destruct (Note_eq_returns y r) as [[] ->]; cbn [bind orb].
  - intros _. exists 0. split; [reflexivity | lia].
  - intros H. destruct (IH H) as (i & -> & Hi). exists (i + 1).
    split; [reflexivity | lia].
Qed.

Lemma list_index_missing (order : list Note) (r : Note) :
  existsb (fun x => eq_holds x r) order = false ->
  list_index order r
  = Raise (ValueError (String.append (Note_repr r) " is not in list")).
Proof.
  induction order as [| y rest IH]; [reflexivity |].
  cbn [existsb list_index]. unfold eq_holds at 1.
  destruct (Note_eq_returns y r) as [[] ->]; cbn [bind orb].
  - discriminate.
  - intros H. rewrite (IH H). reflexivity.
Qed.

(** X14: with a caller-supplied ordering, [get_note_n_steps_away] returns an
    entry of that ordering when some entry is [==] to the Note's root, and
    raises the ValueError of [list.index], whose message is the string form
    of the root followed by " is not in list", when none is (so also for
    the empty ordering). *)
Theorem get_note_n_steps_away_custom_ordering (n : Note) (k : Z)
  (order : list Note) :
  exists r,
    get_root_note n = Ok r
    /\ (existsb (fun x => eq_holds x r) order = true ->
        exists y,
          get_note_n_steps_away n k (Some order) = Ok y /\ In y order)
    /\ (existsb (fun x => eq_holds x r) order = false ->
        get_note_n_steps_away n k (Some order)
          = Raise (ValueError
                     (String.append (Note_repr r) " is not in list"))).
Proof.
  destruct (get_root_note_returns n) as [r Hr]. exists r.
  split; [exact Hr |].
  unfold get_note_n_steps_away, ordering_or_default. rewrite Hr. cbn [bind].
  split; intros H.
  - destruct (list_index_found order r H) as (i & -> & Hi). cbn [bind].
    destruct (py_mod_bounds (i + k) (Z.of_nat (List.length order)))
      as (j & -> & Hj & _); [lia |].
    cbn [bind].
    destruct (getitem_in_range order j Hj) as (y & -> & Hy).
    exists y. split; [reflexivity | eapply nth_error_In; eassumption].
  - rewrite (list_index_missing order r H). reflexivity.
Qed.

(** ** The derived scales *)

(** X15: [get_scale_note_ordering] is the chromatic ring rotated so that it
    starts at the ring entry of the start Note. *)
Theorem get_scale_note_ordering_rotation (s : Scale) :
  exists i,
    chromatic_index (start_note s) = Ok i
    /\ 0 <= i < 12
    /\ get_scale_note_ordering s
       = Ok (skipn (Z.to_nat i) NoteOrdering.get_alphabet_ordering
             ++ firstn (Z.to_nat i) NoteOrdering.get_alphabet_ordering).
Proof.
  destruct s as [[[] [] ty] m]; eexists;
    (split; [reflexivity | split; [lia | reflexivity]]).
Qed.

(** X16: the naive scale picks, from the rotated ring, the entries at the
    cumulative offsets of the formula, and its 7 Notes are pairwise
    different. *)
Theorem get_basic_scale_picks_offsets (s : Scale) :
  exists ordering basic,
    get_scale_note_ordering s = Ok ordering
    /\ get_basic_scale s = Ok basic
    /\ Forall2 (fun offset x => getitem ordering offset = Ok x)
         (get_scale_formula_cum_sum s) basic
    /\ NoDup basic.
Proof.
  destruct s as [[[] [] ty] []]; do 2 eexists;
    (split; [reflexivity |]); (split; [reflexivity |]);
    (split; [repeat constructor |]);
    repeat constructor; cbn [In]; intuition discriminate.
Qed.

(** X17: the spelled scale does not depend on the note type of the start
    Note, and none of its Notes carries a note type. *)
Theorem get_scale_ignores_note_type (start : Note) (m : ScaleType.t) :
  exists degrees,
    get_scale (mkScale start m) = Ok degrees
    /\ get_scale (mkScale (copy start) m) = Ok degrees
    /\ Forall (fun x => note_type x = None) degrees.
Proof.
  destruct start as [[] [] ty], m; eexists;
    (split; [reflexivity | split; [reflexivity | repeat constructor]]).
Qed.

(** X18: for every Scale and every degree k from 1 to 6, the spelled degree is
    [==] to the naive pick exactly in the situations listed by
    [respelling_keeps_pitch], read on the previous spelled degree and the
    naive pick. *)
Theorem get_scale_degree_keeps_pitch_iff (s : Scale) (k : nat) :
  (1 <= k <= 6)%nat ->
  exists spelled basic prev curr x,
    get_scale s = Ok spelled
    /\ get_basic_scale s = Ok basic
    /\ nth_error spelled (k - 1) = Some prev
    /\ nth_error basic k = Some curr
    /\ nth_error spelled k = Some x
    /\ eq_holds x curr = respelling_keeps_pitch prev curr.
Proof.
  intros Hk.
  assert (Hcases : (k = 1 \/ k = 2 \/ k = 3 \/ k = 4 \/ k = 5 \/ k = 6)%nat)
    by lia.
  clear Hk.
  destruct s as [[[] [] ty] []];
    repeat (destruct Hcases as [-> | Hcases]); try subst k;
    do 5 eexists; repeat (split; [reflexivity |]); reflexivity.
Qed.

Lemma get_scale_degree_keeps_pitch_iff_witness :
  (1 <= 6 <= 6)%nat
  /\ exists spelled basic prev curr x,
       get_scale (Scale__init__ notes.G_SHARP None) = Ok spelled
       /\ get_basic_scale (Scale__init__ notes.G_SHARP None) = Ok basic
       /\ nth_error spelled (6 - 1) = Some prev
       /\ nth_error basic 6 = Some curr
       /\ nth_error spelled 6 = Some x
       /\ eq_holds x curr = respelling_keeps_pitch prev curr.
Proof.
  split; [lia |].
  apply (get_scale_degree_keeps_pitch_iff
           (Scale__init__ notes.G_SHARP None) 6).
  lia.
Defined.

(** ** The transposition dict in general *)

Lemma get_transpose_loop (tuple_hash : NoteName.t * NoteAccidental.t -> Z)
  (ks vs : list Note) :
  List.length ks = List.length vs ->
  ForallOrdPairs (fun x y => Note_eq x y = Ok false) ks ->
  forall (pre_k pre_v : list Note) (d : list (Note * Note)),
    List.length pre_k = List.length pre_v ->
    Forall (fun kw => Forall (fun y => Note_eq (fst kw) y = Ok false) ks) d ->
    for_loop
      (map (fun i => Z.of_nat (List.length pre_k) + Z.of_nat i)
           (seq 0 (List.length ks)))
      (fun d i =>
         k <- getitem (pre_k ++ ks) i ;;
         v <- getitem (pre_v ++ vs) i ;;
         dict_setitem tuple_hash d k v)
      d = Ok (d ++ combine ks vs).
Proof.
  intros Hlen Hpairs. revert vs Hlen.
  induction Hpairs as [| k ks Hk Hrest IH]; intros vs Hlen pre_k pre_v d Hpre Hd.
  - cbn. rewrite app_nil_r. reflexivity.
  - destruct vs as [| v vs]; [discriminate Hlen |].
    cbn [List.length seq map for_loop]. rewrite Nat2Z.inj_0, Z.add_0_r.
    assert (Hgk : getitem (pre_k ++ k :: ks) (Z.of_nat (List.length pre_k))
                  = Ok k).
    { destruct (getitem_in_range (pre_k ++ k :: ks)
                  (Z.of_nat (List.length pre_k))) as (x & Hx & Hn).
      - rewrite length_app. cbn [List.length]. lia.
      - rewrite Hx. rewrite Nat2Z.id, nth_error_app2, Nat.sub_diag in Hn
          by lia. cbn in Hn. congruence. }
    assert (Hgv : getitem (pre_v ++ v :: vs) (Z.of_nat (List.length pre_k))
                  = Ok v).
    { rewrite Hpre.
      destruct (getitem_in_range (pre_v ++ v :: vs)
                  (Z.of_nat (List.length pre_v))) as (x & Hx & Hn).
      - rewrite length_app. cbn [List.length]. lia.
      - rewrite Hx. rewrite Nat2Z.id, nth_error_app2, Nat.sub_diag in Hn
          by lia. cbn in Hn. congruence. }
    rewrite Hgk. cbn [bind]. rewrite Hgv. cbn [bind].
    rewrite dict_setitem_fresh.
    2:{ eapply Forall_impl; [| exact Hd]. intros kw Hkw.
        inversion Hkw; assumption. }
    cbn [bind].
    specialize (IH vs ltac:(cbn in Hlen; lia) (pre_k ++ [k]) (pre_v ++ [v])
                  (d ++ [(k, v)])).
    rewrite !length_app in IH. cbn [List.length] in IH.
    rewrite <- !app_assoc in IH. cbn [app] in IH.
    rewrite <- seq_shift, map_map.
    rewrite (map_ext
               (fun x => Z.of_nat (List.length pre_k) + Z.of_nat (S x))
               (fun i => Z.of_nat (List.length pre_k + 1) + Z.of_nat i))
      by (intros i; lia).
    rewrite IH.
    + reflexivity.
    + lia.
    + apply Forall_app. split.
      * eapply Forall_impl; [| exact Hd]. intros kw Hkw.
        inversion Hkw; assumption.
      * constructor; [| constructor]. cbn [fst]. exact Hk.
Qed.

(** X19: when the two Scales have the same mode and the spelled degrees of the
    source Scale are pairwise not [==], [get_transpose] returns the 7 pairs
    (degree i of the source, degree i of the target) in order, whatever the
    built-in hash is. *)
Theorem get_transpose_positional
  (tuple_hash : NoteName.t * NoteAccidental.t -> Z)
  (self other_scale : Scale) (sources targets : list Note) :
  scale_type self = scale_type other_scale ->
  get_scale self = Ok sources ->
  get_scale other_scale = Ok targets ->
  ForallOrdPairs (fun x y => Note_eq x y = Ok false) sources ->
  get_transpose tuple_hash self other_scale = Ok (combine sources targets)
  /\ List.length (combine sources targets) = 7%nat.
Proof.
  intros Hmode Hs Ht Hpairs.
  assert (Hls : List.length sources = 7%nat).
  { destruct (get_scale_returns self) as (e & He & Hl & _).
    rewrite Hs in He. injection He as ->. cbn. lia. }
  assert (Hlt : List.length targets = 7%nat).
  { destruct (get_scale_returns other_scale) as (e & He & Hl & _).
    rewrite Ht in He. injection He as ->. cbn. lia. }
  split.
  - unfold get_transpose.
    replace (ScaleType.eqb (scale_type self) (scale_type other_scale))
      with true by (symmetry; apply ScaleType_eqb_eq; exact Hmode).
    cbn [negb]. rewrite Hs, Ht. cbn [bind].
    pose proof (get_transpose_loop tuple_hash sources targets
                  ltac:(congruence) Hpairs [] [] [] eq_refl
                  (Forall_nil _)) as Hloop.
    rewrite Hls in Hloop. exact Hloop.
  - rewrite length_combine, Hls, Hlt. reflexivity.
Qed.

Lemma get_transpose_positional_witness :
  scale_type (Scale__init__ notes.C None)
    = scale_type (Scale__init__ notes.G_SHARP None)
  /\ get_transpose (fun _ => 0) (Scale__init__ notes.C None)
       (Scale__init__ notes.G_SHARP None)
     = Ok (combine
             [notes.C; notes.D; notes.E; notes.F; notes.G; notes.A; notes.B]
             [notes.G_SHARP; notes.A_SHARP; notes.B_SHARP; notes.C_SHARP;
              notes.D_SHARP; notes.E_SHARP; notes.F_DOUBLE_SHARP])
  /\ List.length
       (combine
          [notes.C; notes.D; notes.E; notes.F; notes.G; notes.A; notes.B]
          [notes.G_SHARP; notes.A_SHARP; notes.B_SHARP; notes.C_SHARP;
           notes.D_SHARP; notes.E_SHARP; notes.F_DOUBLE_SHARP]) = 7%nat.
Proof.
  split; [reflexivity |].
  apply (get_transpose_positional (fun _ => 0) (Scale__init__ notes.C None)
           (Scale__init__ notes.G_SHARP None)).
  - reflexivity.
  - reflexivity.
  - reflexivity.
  - repeat constructor.
Defined.

(** * The callers in musicxml/notes.py *)

Import musicxml.

(** X20: [get_scale_key_fifths] raises ValueError for a Scale on C-flat or
    F-flat, with the message of [list.index] on the start Note ("Cb is not
    in list", "Fb is not in list"); for every other Scale it returns a
    position of the default order whose entry is [==] to the start Note and
    is not a flat. *)
Theorem get_scale_key_fifths_result (scale : Scale) :
  if flat_of_C_or_F (start_note scale)
  then TransposerHelper.get_scale_key_fifths scale
       = Raise (ValueError
                  (String.append (Note_repr (start_note scale))
                     " is not in list"))
       /\ (Note_repr (start_note scale) = "Cb"%string
           \/ Note_repr (start_note scale) = "Fb"%string)
  else exists i x,
         TransposerHelper.get_scale_key_fifths scale = Ok i
         /\ getitem NoteOrdering.get_default_order i = Ok x
         /\ eq_holds x (start_note scale) = true
         /\ accidental x <> NoteAccidental.FLAT.
Proof.
  destruct scale as [[[] [] ty] m]; cbn [flat_of_C_or_F start_note];
    try (split; [reflexivity | cbn; auto]);
    do 2 eexists; repeat (split; [reflexivity |]); discriminate.
Qed.




Lemma convert_notes_fold (xml_notes : list Note.t) :
  forall acc,
    fold_left TransposerHelper.convert_notes_body xml_notes acc
    = acc ++ TransposerHelper.convert_notes xml_notes.
Proof.
  unfold TransposerHelper.convert_notes.
  induction xml_notes as [| n rest IH]; intros acc.
  - cbn. rewrite app_nil_r. reflexivity.
  - cbn [fold_left]. rewrite IH. rewrite (IH (_ [] n)).
    unfold TransposerHelper.convert_notes_body.
    destruct (Note.first_position n); cbn [app];
      rewrite <- ?app_assoc; reflexivity.
Qed.

Lemma convert_notes_length_le (xs : list Note.t) :
  (List.length (TransposerHelper.convert_notes xs) <= List.length xs)%nat.
Proof.
  induction xs as [| n rest IH]; [cbn; lia |].
  unfold TransposerHelper.convert_notes. cbn [fold_left].
  rewrite convert_notes_fold.
  unfold TransposerHelper.convert_notes_body.
  destruct (Note.first_position n); cbn [app List.length]; lia.
Qed.

(** X23: [convert_notes] keeps the pitched notes only, in order, one
    two-field Note each (letter from the pitch's step, natural when the
    accidental is [None]); it distributes over concatenation. *)
Theorem convert_notes_pitched_only (xs ys : list Note.t) :
  TransposerHelper.convert_notes (xs ++ ys)
    = TransposerHelper.convert_notes xs ++ TransposerHelper.convert_notes ys
  /\ List.length (TransposerHelper.convert_notes xs)
     = List.length (filter is_pitched xs)
  /\ (List.length (TransposerHelper.convert_notes xs) <= List.length xs)%nat
  /\ Forall (fun m => note_type m = None) (TransposerHelper.convert_notes xs).
Proof.
  split.
  - unfold TransposerHelper.convert_notes at 1.
    rewrite fold_left_app, !convert_notes_fold. reflexivity.
  - induction xs as [| n rest (IH1 & IH2 & IH3)];
      [repeat split; constructor |].
    unfold TransposerHelper.convert_notes. cbn [fold_left].
    rewrite convert_notes_fold. cbn [filter].
    unfold TransposerHelper.convert_notes_body, is_pitched in *.
    destruct (Note.first_position n); cbn [app List.length];
      repeat split; try lia; try assumption.
    constructor; [reflexivity | assumption].
Qed.

(** ** transpose_measure *)

Lemma update_item_at_end_of_prefix {T : Type} (done : list T) (c : T)
  (cs : list T) (f : T -> T) :
  TransposerHelper.update_item (done ++ c :: cs)
    (Z.of_nat (List.length done)) f
  = Ok (done ++ f c :: cs).
Proof.
  unfold TransposerHelper.update_item.
  destruct (getitem_in_range (done ++ c :: cs) (Z.of_nat (List.length done)))
    as (x & -> & Hn).
  { rewrite length_app. cbn [List.length]. lia. }
  rewrite Nat2Z.id, nth_error_app2, Nat.sub_diag in Hn by lia.
  cbn in Hn. injection Hn as <-. cbn [bind].
  replace (Z.of_nat (List.length done) <? 0) with false
    by (symmetry; apply Z.ltb_ge; lia).
  rewrite Nat2Z.id. f_equal.
  rewrite firstn_app, Nat.sub_diag, firstn_all, firstn_O, app_nil_r.
  f_equal. f_equal.
  rewrite skipn_app, skipn_all2 by lia.
  replace (S (List.length done) - List.length done)%nat with 1%nat by lia.
  reflexivity.
Qed.

Lemma retarget_prefix_nil (xs : list Note.t) : retarget_prefix xs [] = xs.
Proof. destruct xs; reflexivity. Qed.

Lemma retarget_loop (ts : list Note) :
  forall (done cs : list Note.t),
    (List.length ts <= List.length cs)%nat ->
    for_loop
      (combine
         (map (fun i => Z.of_nat (List.length done) + Z.of_nat i)
              (seq 0 (List.length ts)))
         ts)
      (fun new_notes '(i, new_note) =>
         TransposerHelper.update_item new_notes i
           (fun n => Note.retarget n (note_name new_note)
                       (accidental new_note)))
      (done ++ cs)
    = Ok (done ++ retarget_prefix cs ts).
Proof.
  induction ts as [| t ts IH]; intros done cs Hlen.
  - cbn. rewrite retarget_prefix_nil. reflexivity.
  - destruct cs as [| c cs]; [cbn in Hlen; lia |].
    cbn [List.length seq map combine for_loop].
    rewrite Z.add_0_r, update_item_at_end_of_prefix. cbn [bind].
    rewrite <- seq_shift, map_map.
    rewrite (map_ext
               (fun x => Z.of_nat (List.length done) + Z.of_nat (S x))
               (fun i => Z.of_nat (List.length (done ++ [Note.retarget c
                                     (note_name t) (accidental t)]))
                         + Z.of_nat i)).
    2:{ intros i. rewrite length_app. cbn [List.length]. lia. }
    specialize (IH (done ++ [Note.retarget c (note_name t) (accidental t)])
                  cs ltac:(cbn in Hlen; lia)).
    rewrite <- app_assoc in IH. cbn [app] in IH. rewrite IH.
    rewrite <- app_assoc. reflexivity.
Qed.

Lemma transpose_measure_same_mode (measure : Measure.t)
  (new_scale original_scale : Scale) :
  scale_type original_scale = scale_type new_scale ->
  exists ts,
    transpose_notes_from new_scale original_scale
      (TransposerHelper.convert_notes (Measure.notes measure)) = Ok ts
    /\ Forall2 (moved_by_distance new_scale original_scale)
         (TransposerHelper.convert_notes (Measure.notes measure)) ts
    /\ TransposerHelper.transpose_measure measure new_scale original_scale
       = (new_attributes <-
            match Measure.attributes measure with
            | Some attributes =>
                k <- TransposerHelper.get_scale_key_fifths new_scale ;;
                Ok (Some (Attributes.set_key_fifths
                            (Attributes.copy attributes) k))
            | None => Ok None
            end ;;
          Ok (Measure.mk (Measure.number measure)
                (retarget_prefix (map Note.copy (Measure.notes measure)) ts)
                new_attributes (Measure.barline measure))).
Proof.
  intros Hmode.
  destruct (transpose_notes_from_same_mode new_scale original_scale
              (TransposerHelper.convert_notes (Measure.notes measure)) Hmode)
    as (ts & Hts & Hrel & _).
  exists ts. split; [exact Hts | split; [exact Hrel |]].
  unfold TransposerHelper.transpose_measure. rewrite Hts. cbn [bind].
  unfold TransposerHelper.enumerate, range.
  rewrite Z.sub_0_r, Nat2Z.id.
  pose proof (retarget_loop ts [] (map Note.copy (Measure.notes measure)))
    as Hloop.
  cbn [app List.length] in Hloop. change (Z.of_nat 0) with 0 in Hloop.
  rewrite Hloop.
  - cbn [bind]. destruct measure as [number xs [a |] [[loc style] |]];
      reflexivity.
  - rewrite length_map.
    rewrite <- (Forall2_length Hrel).
    apply convert_notes_length_le.
Qed.

Lemma key_fifths_of_flat_C_or_F (scale : Scale) :
  flat_of_C_or_F (start_note scale) = true ->
  TransposerHelper.get_scale_key_fifths scale
  = Raise (ValueError
             (String.append (Note_repr (start_note scale))
                " is not in list")).
Proof.
  destruct scale as [[[] [] ty] m]; cbn [flat_of_C_or_F start_note];
    try discriminate; reflexivity.
Qed.

Lemma key_fifths_of_other (scale : Scale) :
  flat_of_C_or_F (start_note scale) = false ->
  returns (TransposerHelper.get_scale_key_fifths scale).
Proof.
  destruct scale as [[[] [] ty] m]; cbn [flat_of_C_or_F start_note];
    try discriminate; intros _; eexists; reflexivity.
Qed.

Lemma transpose_measure_other_mode (measure : Measure.t)
  (new_scale original_scale : Scale) :
  scale_type original_scale <> scale_type new_scale ->
  TransposerHelper.transpose_measure measure new_scale original_scale
  = Raise (ValueError "Cannot transpose scales of different types").
Proof.
  intros Hmode. unfold TransposerHelper.transpose_measure.
  rewrite (transpose_notes_from_other_mode _ _ _ Hmode). reflexivity.
Qed.

Lemma ScaleType_eq_dec (a b : ScaleType.t) : a = b \/ a <> b.
Proof. destruct a, b; (left; reflexivity) || (right; discriminate). Qed.

(** X24: [transpose_measure] raises exactly when the modes of the two Scales
    differ, or the measure has attributes and the new Scale starts on
    C-flat or F-flat (its key fifths cannot be looked up). *)
Theorem transpose_measure_raises_iff (measure : Measure.t)
  (new_scale original_scale : Scale) :
  raises (TransposerHelper.transpose_measure measure new_scale original_scale)
  <-> scale_type original_scale <> scale_type new_scale
      \/ (Measure.attributes measure <> None
          /\ flat_of_C_or_F (start_note new_scale) = true).
Proof.
  destruct (ScaleType_eq_dec (scale_type original_scale)
              (scale_type new_scale)) as [Hmode | Hmode].
  - destruct (transpose_measure_same_mode measure new_scale original_scale
                Hmode) as (ts & _ & _ & ->).
    destruct (Measure.attributes measure) as [a |].
    + destruct (flat_of_C_or_F (start_note new_scale)) eqn:Hflat.
      * rewrite (key_fifths_of_flat_C_or_F _ Hflat). cbn [bind]. split.
        -- intros _. right. split; [discriminate | reflexivity].
        -- intros _. eexists. reflexivity.
      * destruct (key_fifths_of_other _ Hflat) as [k ->]. cbn [bind]. split.
        -- intros [e He]. discriminate.
        -- intros [H | [_ H]]; [contradiction | discriminate].
    + cbn [bind]. split.
      * intros [e He]. discriminate.
      * intros [H | [H _]]; contradiction.
  - rewrite (transpose_measure_other_mode _ _ _ Hmode). split.
    + intros _. left. exact Hmode.
    + intros _. eexists. reflexivity.
Qed.


Lemma retarget_prefix_beyond (xs : list Note.t) :
  forall ts i,
    (List.length ts <= i)%nat ->
    nth_error (retarget_prefix xs ts) i = nth_error xs i.
Proof.
  induction xs as [| x xs IH]; intros [| t ts] i Hi; try reflexivity.
  destruct i as [| i]; [cbn in Hi; lia |].
  cbn [retarget_prefix nth_error]. apply IH. cbn in Hi. lia.
Qed.

Lemma transpose_measure_returned (measure returned : Measure.t)
  (new_scale original_scale : Scale) :
  TransposerHelper.transpose_measure measure new_scale original_scale
    = Ok returned ->
  exists ts,
    transpose_notes_from new_scale original_scale
      (TransposerHelper.convert_notes (Measure.notes measure)) = Ok ts
    /\ Forall2 (moved_by_distance new_scale original_scale)
         (TransposerHelper.convert_notes (Measure.notes measure)) ts
    /\ Measure.number returned = Measure.number measure
    /\ Measure.barline returned = Measure.barline measure
    /\ Measure.notes returned
       = retarget_prefix (map Note.copy (Measure.notes measure)) ts
    /\ match Measure.attributes measure with
       | None => Measure.attributes returned = None
       | Some a =>
           exists k,
             TransposerHelper.get_scale_key_fifths new_scale = Ok k
             /\ Measure.attributes returned
                = Some (Attributes.mk (Attributes.divisions a) k
                          (Attributes.beats a) (Attributes.beat_type a)
                          (Attributes.clef a))
       end.
Proof.
  intros Hret.
  destruct (ScaleType_eq_dec (scale_type original_scale)
              (scale_type new_scale)) as [Hmode | Hmode].
  2:{ rewrite (transpose_measure_other_mode _ _ _ Hmode) in Hret.
      discriminate. }
  destruct (transpose_measure_same_mode measure new_scale original_scale
              Hmode) as (ts & Hts & Hrel & Heq).
  rewrite Heq in Hret. exists ts.
  split; [exact Hts | split; [exact Hrel |]].
  destruct (Measure.attributes measure) as [a |].
  - destruct (TransposerHelper.get_scale_key_fifths new_scale) as [k | e];
      cbn [bind] in Hret; [| discriminate].
    injection Hret as <-. cbn. repeat split. exists k. split; reflexivity.
  - cbn [bind] in Hret. injection Hret as <-. cbn. repeat split.
Qed.






(** X27: the notes of a measure are matched with the transposed Notes by
    position, not by kind: every note at a position from the number of
    pitched notes on is returned as a plain copy, pitched or not. *)
Theorem transpose_measure_copies_beyond_pitched_count
  (measure returned : Measure.t) (new_scale original_scale : Scale)
  (i : nat) (x : Note.t) :
  TransposerHelper.transpose_measure measure new_scale original_scale
    = Ok returned ->
  (List.length (filter is_pitched (Measure.notes measure)) <= i)%nat ->
  nth_error (Measure.notes measure) i = Some x ->
  nth_error (Measure.notes returned) i = Some (Note.copy x).
Proof.
  intros Hret Hi Hx.
  destruct (transpose_measure_returned _ _ _ _ Hret)
    as (ts & _ & Hrel & _ & _ & -> & _).
  rewrite retarget_prefix_beyond.
  - rewrite nth_error_map, Hx. reflexivity.
  - rewrite <- (Forall2_length Hrel).
    assert (Hcount : forall xs,
               List.length (TransposerHelper.convert_notes xs)
               = List.length (filter is_pitched xs)).
    { induction xs as [| n rest IH]; [reflexivity |].
      unfold TransposerHelper.convert_notes. cbn [fold_left].
      rewrite convert_notes_fold. cbn [filter].
      unfold TransposerHelper.convert_notes_body, is_pitched in *.
      destruct (Note.first_position n); cbn [app List.length]; lia. }
    rewrite Hcount. exact Hi.
Qed.

(** A rest followed by a pitched C-sharp, moved from C to G: the pitched
    note, at position 1, comes back untransposed. *)
Lemma transpose_measure_copies_beyond_pitched_count_witness :
  TransposerHelper.transpose_measure
    (Measure.mk 1 [rest_note; pitched_C (Some NoteAccidental.SHARP)]
       None None)
    (Scale__init__ notes.G None) (Scale__init__ notes.C None)
  = Ok (Measure.mk 1
          [Note.retarget (Note.copy rest_note) NoteName.G
             NoteAccidental.SHARP;
           Note.copy (pitched_C (Some NoteAccidental.SHARP))]
          None None)
  /\ (List.length
        (filter is_pitched
           [rest_note; pitched_C (Some NoteAccidental.SHARP)]) <= 1)%nat
  /\ nth_error [rest_note; pitched_C (Some NoteAccidental.SHARP)] 1
     = Some (pitched_C (Some NoteAccidental.SHARP))
  /\ nth_error
       [Note.retarget (Note.copy rest_note) NoteName.G NoteAccidental.SHARP;
        Note.copy (pitched_C (Some NoteAccidental.SHARP))] 1
     = Some (Note.copy (pitched_C (Some NoteAccidental.SHARP))).
Proof.
  split; [reflexivity | split; [cbn; lia | split; [reflexivity |]]].
  apply (transpose_measure_copies_beyond_pitched_count
           (Measure.mk 1 [rest_note; pitched_C (Some NoteAccidental.SHARP)]
              None None)
           (Measure.mk 1
              [Note.retarget (Note.copy rest_note) NoteName.G
                 NoteAccidental.SHARP;
               Note.copy (pitched_C (Some NoteAccidental.SHARP))]
              None None)
           (Scale__init__ notes.G None) (Scale__init__ notes.C None) 1%nat
           (pitched_C (Some NoteAccidental.SHARP))).
  - reflexivity.
  - cbn. lia.
  - reflexivity.
Defined.

(** ** transpose_part *)

Lemma for_loop_append {T U : Type} (f : T -> result U) (xs : list T) :
  forall acc,
    for_loop xs (fun acc x => y <- f x ;; Ok (acc ++ [y])) acc
    = (ys <- comprehension f xs ;; Ok (acc ++ ys)).
Proof.
  induction xs as [| x xs IH]; intros acc.
  - cbn. rewrite app_nil_r. reflexivity.
  - cbn [for_loop comprehension]. destruct (f x) as [y | e]; cbn [bind];
      [| reflexivity].
    rewrite IH. destruct (comprehension f xs) as [ys | e]; cbn [bind];
      [| reflexivity].
    rewrite <- app_assoc. reflexivity.
Qed.

Lemma comprehension_raises_iff {T U : Type} (f : T -> result U)
  (xs : list T) :
  raises (comprehension f xs) <-> exists x, In x xs /\ raises (f x).
Proof.
  induction xs as [| x xs IH].
  - split; [intros [e He]; discriminate | intros (x & [] & _)].
  - cbn [comprehension]. destruct (f x) as [y | e] eqn:Hfx; cbn [bind].
    + destruct (comprehension f xs) as [ys | e] eqn:Hrest; cbn [bind].
      * split; [intros [e He]; discriminate |].
        intros (z & [<- | Hz] & [e He]); [congruence |].
        destruct (proj2 IH) as [e' He']; [| discriminate].
        exists z. split; [exact Hz | exists e; exact He].
      * split; [| intros _; eexists; reflexivity].
        intros _. destruct (proj1 IH) as (z & Hz & Hr);
          [eexists; reflexivity |].
        exists z. split; [right; exact Hz | exact Hr].
    + split; [| intros _; eexists; reflexivity].
      intros _. exists x. split; [left; reflexivity |].
      exists e. exact Hfx.
Qed.

Lemma transpose_part_unfold (part : Part.t)
  (new_scale original_scale : Scale) :
  TransposerHelper.transpose_part part new_scale original_scale
  = match comprehension
            (fun m =>
               TransposerHelper.transpose_measure m new_scale original_scale)
            (Part.measures part) with
    | Ok ms => (Part.mk (Part.id part) (Part.name part) ms,
                Ok (Part.copy part))
    | Raise e => (part, Raise e)
    end.
Proof.
  unfold TransposerHelper.transpose_part.
  rewrite (for_loop_append
             (fun m =>
                TransposerHelper.transpose_measure m new_scale
                  original_scale)).
  destruct (comprehension _ (Part.measures part)); reflexivity.
Qed.

(** X28: when [transpose_part] returns, what it returns is the copy of the
    part taken before transposing, so its measures are the copies of the
    original measures; the transposed measures, one per measure in order,
    are left in the argument. *)
Theorem transpose_part_returns_untransposed_copy (part returned : Part.t)
  (new_scale original_scale : Scale) :
  snd (TransposerHelper.transpose_part part new_scale original_scale)
    = Ok returned ->
  returned = Part.copy part
  /\ Part.measures returned = map Measure.copy (Part.measures part)
  /\ exists transposed,
       comprehension
         (fun m =>
            TransposerHelper.transpose_measure m new_scale original_scale)
         (Part.measures part) = Ok transposed
       /\ fst (TransposerHelper.transpose_part part new_scale original_scale)
          = Part.mk (Part.id part) (Part.name part) transposed.
Proof.
  rewrite transpose_part_unfold.
  destruct (comprehension _ (Part.measures part)) as [ms | e];
    cbn [fst snd]; intros H; [| discriminate].
  injection H as <-. repeat split. exists ms. split; reflexivity.
Qed.

Lemma transpose_part_returns_untransposed_copy_witness :
  snd (TransposerHelper.transpose_part
         (Part.mk "P1" "Music"
            [Measure.mk 1 [pitched_C (Some NoteAccidental.SHARP)] None None])
         (Scale__init__ notes.G None) (Scale__init__ notes.C None))
  = Ok (Part.mk "P1" "Music"
          [Measure.mk 1 [Note.copy (pitched_C (Some NoteAccidental.SHARP))]
             None None])
  /\ Part.mk "P1" "Music"
       [Measure.mk 1 [Note.copy (pitched_C (Some NoteAccidental.SHARP))]
          None None]
     = Part.copy
         (Part.mk "P1" "Music"
            [Measure.mk 1 [pitched_C (Some NoteAccidental.SHARP)] None None])
  /\ Part.measures
       (Part.mk "P1" "Music"
          [Measure.mk 1 [Note.copy (pitched_C (Some NoteAccidental.SHARP))]
             None None])
     = map Measure.copy
         [Measure.mk 1 [pitched_C (Some NoteAccidental.SHARP)] None None]
  /\ exists transposed,
       comprehension
         (fun m =>
            TransposerHelper.transpose_measure m (Scale__init__ notes.G None)
              (Scale__init__ notes.C None))
         [Measure.mk 1 [pitched_C (Some NoteAccidental.SHARP)] None None]
       = Ok transposed
       /\ fst (TransposerHelper.transpose_part
                 (Part.mk "P1" "Music"
                    [Measure.mk 1 [pitched_C (Some NoteAccidental.SHARP)]
                       None None])
                 (Scale__init__ notes.G None) (Scale__init__ notes.C None))
          = Part.mk "P1" "Music" transposed.
Proof.
  split; [reflexivity |].
  apply (transpose_part_returns_untransposed_copy
           (Part.mk "P1" "Music"
              [Measure.mk 1 [pitched_C (Some NoteAccidental.SHARP)] None
                 None])
           (Part.mk "P1" "Music"
              [Measure.mk 1
                 [Note.copy (pitched_C (Some NoteAccidental.SHARP))] None
                 None])
           (Scale__init__ notes.G None) (Scale__init__ notes.C None)).
  reflexivity.
Defined.

(** X29: [transpose_part] raises exactly when transposing one of the part's
    measures raises, so never for a part without measures, whatever the
    modes; and when it raises, the argument is left as it was. *)
Theorem transpose_part_raises_iff (part : Part.t)
  (new_scale original_scale : Scale) :
  (raises (snd (TransposerHelper.transpose_part part new_scale
                  original_scale))
   <-> exists m,
         In m (Part.measures part)
         /\ raises (TransposerHelper.transpose_measure m new_scale
                      original_scale))
  /\ (raises (snd (TransposerHelper.transpose_part part new_scale
                     original_scale)) ->
      fst (TransposerHelper.transpose_part part new_scale original_scale)
      = part)
  /\ TransposerHelper.transpose_part
       (Part.mk (Part.id part) (Part.name part) []) new_scale original_scale
     = (Part.mk (Part.id part) (Part.name part) [],
        Ok (Part.mk (Part.id part) (Part.name part) [])).
Proof.
  split; [| split; [| reflexivity]].
  - rewrite transpose_part_unfold.
    rewrite <- comprehension_raises_iff.
    destruct (comprehension _ (Part.measures part)) as [ms | e];
      cbn [snd]; split; intros [e' He']; try discriminate;
      eexists; reflexivity.
  - rewrite transpose_part_unfold.
    destruct (comprehension _ (Part.measures part)) as [ms | e];
      cbn [fst snd]; [intros [e' He']; discriminate | reflexivity].
Qed.
